(** * DescubreTuCasa TikTok relay: the token lifecycle, the video listing and
      the webhook relay of [main.py], embedded and verified.

    The service keeps one OAuth credential row in a remote table, refreshes
    the access token when it has expired, pages through the account's videos
    and posts them to a webhook.  Python values are untyped, so the embedding
    works over a small universe of Python values; the outside world (the
    table, the wall clock, the replies of the remote HTTP servers) is an
    explicit state threaded through every function, together with the
    chronological trace of the outbound calls the program has made.

    What the embedding leaves out: the [print] statements (the error body
    that [api_post] prints is read inside a [try] and cannot fail), the
    request timeouts, the difference between form and JSON encoding of a
    request body, and failures of the persistence service, which is taken to
    answer every read and write. *)

From stdpp Require Import gmap strings list fin_maps.
From Stdlib Require Import ZArith Lia Ascii.

Set Warnings "-register-all,-clear-no-such-hyp".
Local Open Scope string_scope.
Local Open Scope Z_scope.

(** ** Python values *)

(** The values that flow through the program: what [json.loads] can build
    (numbers are integers here), which is also what the table's client
    returns and what the program itself constructs.

    A Python [str] is a sequence of characters.  It is represented by a
    string with one [ascii] per character, so the strings covered are those
    whose characters have a code point below 256; length and slicing count
    characters. *)
Inductive pyval : Type :=
| PNone
| PBool (b : bool)
| PInt (n : Z)
| PStr (s : string)
| PList (l : list pyval)
| PDict (d : gmap string pyval).

(** Truth value of an object in a condition ([if x], [not x], [x or y]). *)
Definition truthy (v : pyval) : bool :=
  match v with
  | PNone => false
  | PBool b => b
  | PInt n => negb (Z.eqb n 0)
  | PStr s => match s with EmptyString => false | String _ _ => true end
  | PList l => match l with [] => false | _ :: _ => true end
  | PDict d => negb (bool_decide (size d = 0%nat))
  end.

(** [x or y] *)
Definition py_or (x y : pyval) : pyval := if truthy x then x else y.

(** [x is not None] *)
Definition is_not_None (v : pyval) : bool :=
  match v with PNone => false | _ => true end.

(** Exceptions the program can raise or let through. *)
Inductive exn : Type :=
| RuntimeError (msg : string)
| HTTPException (status_code : Z) (detail : pyval)  (* fastapi *)
| HTTPError (status_code : Z)                       (* requests, raise_for_status *)
| RequestException                                  (* requests: no reply *)
| JSONDecodeError                                   (* resp.json() on a non-JSON body *)
| KeyError (key : string)
| AttributeError
| TypeError
| ValueError.

(** [d.get(k)] and [d.get(k, dflt)] on a dict. *)
Definition dict_get (d : gmap string pyval) (k : string) (dflt : pyval) : pyval :=
  default dflt (d !! k).

(** [v.get(k, dflt)]: only dicts have the method. *)
Definition py_get (v : pyval) (k : string) (dflt : pyval) : exn + pyval :=
  match v with
  | PDict d => inr (dict_get d k dflt)
  | _ => inl AttributeError
  end.

(** [v[k]] with a string key. *)
Definition py_getitem (v : pyval) (k : string) : exn + pyval :=
  match v with
  | PDict d => match d !! k with Some x => inr x | None => inl (KeyError k) end
  | _ => inl TypeError
  end.

(** *** [int(...)] *)

(** The characters [int] skips around a number: tab to carriage return and
    the space, and the two further white space characters below 256, next
    line (133) and no-break space (160). *)
Definition is_space (c : ascii) : bool :=
  let n := Z.of_N (N_of_ascii c) in
  ((9 <=? n) && (n <=? 13)) || (n =? 32) || (n =? 133) || (n =? 160).

Definition digit_of (c : ascii) : option Z :=
  let n := Z.of_N (N_of_ascii c) in
  if (48 <=? n) && (n <=? 57) then Some (n - 48) else None.

Fixpoint lstrip (s : string) : string :=
  match s with
  | String c s' => if is_space c then lstrip s' else s
  | EmptyString => EmptyString
  end.

Fixpoint rstrip (s : string) : string :=
  match s with
  | String c s' =>
      match rstrip s' with
      | EmptyString => if is_space c then EmptyString else String c EmptyString
      | r => String c r
      end
  | EmptyString => EmptyString
  end.

(** Decimal digits, single underscores allowed between two digits. *)
Fixpoint digits (acc : Z) (after_digit : bool) (s : string) : option Z :=
  match s with
  | EmptyString => if after_digit then Some acc else None
  | String c s' =>
      match digit_of c with
      | Some d => digits (10 * acc + d) true s'
      | None =>
          if Ascii.eqb c "_"%char && after_digit then digits acc false s' else None
      end
  end.

Fixpoint count_digits (s : string) : nat :=
  match s with
  | EmptyString => 0%nat
  | String c s' =>
      ((match digit_of c with Some _ => 1 | None => 0 end) + count_digits s')%nat
  end.

(** The interpreter refuses to convert a string of more than 4300 digits. *)
Definition MAX_STR_DIGITS : nat := 4300.

(** [int(s)]: surrounding white space, an optional sign, decimal digits.
    [None] is [ValueError]. *)
Definition int_of_str (s : string) : option Z :=
  let t := rstrip (lstrip s) in
  if (MAX_STR_DIGITS <? count_digits t)%nat then None else
  match t with
  | String "-"%char s' => Z.opp <$> digits 0 false s'
  | String "+"%char s' => digits 0 false s'
  | s' => digits 0 false s'
  end.

Definition py_int (v : pyval) : exn + Z :=
  match v with
  | PInt n => inr n
  | PBool b => inr (if b then 1 else 0)
  | PStr s => match int_of_str s with Some n => inr n | None => inl ValueError end
  | PNone | PList _ | PDict _ => inl TypeError
  end.

(** Iterating over a value, as [list.extend] does.  A dict yields its keys;
    the map does not record insertion order, they come in the map's order. *)
Fixpoint chars (s : string) : list pyval :=
  match s with
  | EmptyString => []
  | String c s' => PStr (String c EmptyString) :: chars s'
  end.

Definition py_iter (v : pyval) : exn + list pyval :=
  match v with
  | PList l => inr l
  | PStr s => inr (chars s)
  | PDict d => inr ((λ kv, PStr kv.1) <$> map_to_list d)
  | PNone | PBool _ | PInt _ => inl TypeError
  end.

(** [s[:n]] on a string: its first [n] characters, or all of it when it has
    fewer. *)
Definition str_prefix (n : nat) (s : string) : string := String.substring 0 n s.

(** [v[:n]] *)
Definition py_prefix (n : nat) (v : pyval) : exn + pyval :=
  match v with
  | PStr s => inr (PStr (str_prefix n s))
  | PList l => inr (PList (take n l))
  | _ => inl TypeError
  end.

(** [sep.join(l)] *)
Fixpoint join (sep : string) (l : list string) : string :=
  match l with
  | [] => ""
  | [x] => x
  | x :: l' => x +:+ sep +:+ join sep l'
  end.

(** ** The outside world *)

(** An HTTP response as [requests] presents it.  [json] is what [resp.json()]
    returns, [None] when the body does not parse. *)
Record response : Type := Response {
  status_code : Z;
  text : string;
  json : option pyval;
}.

(** What the network does with one outbound request. *)
Inductive reply : Type :=
| Reply (r : response)
| NoReply.

(** One reading of the wall clock: [int(time.time())] and
    [datetime.now(timezone.utc).isoformat()]. *)
Record instant : Type := Instant {
  epoch : Z;
  isoformat : string;
}.

(** Outbound calls. [bearer] is the token of the Authorization header,
    [PNone] without one; [body] is the form or JSON payload. *)
Inductive event : Type :=
| DbSelect
| DbUpsert (payload : gmap string pyval)
| HttpPost (url : string) (bearer : pyval) (body : pyval)
| HttpGet (url : string) (bearer : pyval).

(** Configuration read from the environment at start-up. *)
Record config : Type := Config {
  N8N_URL : string;
  CLIENT_KEY : pyval;
  CLIENT_SECRET : pyval;
  TIKTOK_REDIRECT_URI : pyval;
}.

Record world : Type := World {
  env : config;
  (** the row of table [tokens] whose provider is ['tiktok'], if any; no
      other row is ever read or written *)
  tokens_row : option (gmap string pyval);
  (** the clock's successive readings, and how many were taken *)
  clock : nat → instant;
  reads : nat;
  (** the replies the network gives to the next outbound HTTP requests, in
      order; once they are used up the network is unreachable *)
  inbox : list reply;
  (** outbound calls made so far, oldest first *)
  trace : list event;
}.

Definition log (ev : event) (w : world) : world :=
  World (env w) (tokens_row w) (clock w) (reads w) (inbox w) (trace w ++ [ev]).

Definition set_row (r : gmap string pyval) (w : world) : world :=
  World (env w) (Some r) (clock w) (reads w) (inbox w) (trace w).

Definition set_inbox (l : list reply) (w : world) : world :=
  World (env w) (tokens_row w) (clock w) (reads w) l (trace w).

Definition tick (w : world) : world :=
  World (env w) (tokens_row w) (clock w) (S (reads w)) (inbox w) (trace w).

(** The stored value of a column. *)
Definition column (w : world) (k : string) : option pyval :=
  tokens_row w ≫= (.!! k).

(** ** Computations: state and exceptions *)

Definition M (A : Type) : Type := world → (exn + A) * world.

Definition ret {A} (a : A) : M A := λ w, (inr a, w).
Definition raise {A} (e : exn) : M A := λ w, (inl e, w).
Definition lift {A} (r : exn + A) : M A := λ w, (r, w).
Definition bind {A B} (m : M A) (k : A → M B) : M B :=
  λ w, match m w with
       | (inr a, w') => k a w'
       | (inl e, w') => (inl e, w')
       end.

Notation "'let*' x ':=' c 'in' k" := (bind c (λ x, k))
  (at level 10, x name, c at level 100, k at level 200).
Notation "c ';;;' k" := (bind c (λ _, k))
  (at level 100, k at level 200, right associativity).

(** [try: m except Exception as e: h e] *)
Definition try_except {A} (m : M A) (h : exn → M A) : M A :=
  λ w, match m w with
       | (inr a, w') => (inr a, w')
       | (inl e, w') => h e w'
       end.

(** *** Primitives *)

Definition now : M instant :=
  λ w, (inr (clock w (reads w)), tick w).

(** [int(time.time())] *)
Definition time_time : M Z := let* t := now in ret (epoch t).

(** [datetime.now(timezone.utc).isoformat()] *)
Definition utcnow_isoformat : M string := let* t := now in ret (isoformat t).

Definition TOKEN_COLUMNS : list string :=
  ["provider"; "account_open_id"; "access_token"; "refresh_token"; "scope";
   "expires_at"; "updated_at"].

(** A row as a select returns it: exactly the selected columns, null where
    the row has no value. *)
Definition select_columns (cols : list string) (r : gmap string pyval)
  : gmap string pyval :=
  list_to_map ((λ c, (c, dict_get r c PNone)) <$> cols).

(** [table("tokens").select(cols).eq("provider","tiktok").limit(1).execute()]:
    the rows found. *)
Definition db_select : M (list (gmap string pyval)) :=
  λ w,
    let rows :=
      match tokens_row w with
      | Some r => [select_columns TOKEN_COLUMNS r]
      | None => []
      end in
    (inr rows, log DbSelect w).

(** [table("tokens").upsert(payload, on_conflict="provider").execute()]: the
    persistence service inserts the row, or on conflict updates the columns
    the payload names and leaves the others as they are. *)
Definition db_upsert (payload : gmap string pyval) : M unit :=
  λ w,
    (inr (), set_row (payload ∪ default ∅ (tokens_row w)) (log (DbUpsert payload) w)).

(** One outbound HTTP request: it is recorded, and the network's next reply
    is consumed. *)
Definition http (ev : event) : M response :=
  λ w,
    match inbox w with
    | Reply r :: rest => (inr r, set_inbox rest (log ev w))
    | NoReply :: rest => (inl RequestException, set_inbox rest (log ev w))
    | [] => (inl RequestException, log ev w)
    end.

(** The configuration, [os.getenv] at start-up. *)
Definition getenv : M config := λ w, (inr (env w), w).

(** The replies still to come bound the rounds a loop of requests can make. *)
Definition rounds_left : M nat := λ w, (inr (S (length (inbox w))), w).

(** [resp.json()] *)
Definition resp_json (resp : response) : M pyval :=
  match json resp with
  | Some v => ret v
  | None => raise JSONDecodeError
  end.

(** [resp.raise_for_status()] *)
Definition raise_for_status (resp : response) : M unit :=
  if (400 <=? status_code resp) && (status_code resp <? 600)
  then raise (HTTPError (status_code resp))
  else ret ().

(** ** The program *)

Definition BASE : string := "https://open.tiktokapis.com/v2".

Definition VIDEO_FIELDS : list string :=
  ["id"; "title"; "create_time"; "cover_image_url"; "share_url";
   "view_count"; "like_count"; "comment_count"; "share_count"].

Definition NO_TOKENS_MSG : string :=
  "No hay tokens guardados en Supabase (provider='tiktok'). Realiza primero el intercambio de authorization_code.".

Definition NO_REFRESH_MSG : string :=
  "No hay refresh_token guardado. Reautoriza la app.".

(** [get_tokens_row]: [rows[0] if rows else None]. *)
Definition get_tokens_row : M (option (gmap string pyval)) :=
  let* rows := db_select in
  ret (head rows).

(** [payload[k] = v] when [v is not None]. *)
Definition put_if_given (k : string) (v : pyval) (payload : gmap string pyval)
  : gmap string pyval :=
  if is_not_None v then <[k := v]> payload else payload.

Definition upsert_tokens
    (access_token refresh_token scope expires_in account_open_id : pyval) : M unit :=
  let payload : gmap string pyval := {[ "provider" := PStr "tiktok" ]} in
  let payload := put_if_given "access_token" access_token payload in
  let payload := put_if_given "refresh_token" refresh_token payload in
  let payload := put_if_given "scope" scope payload in
  let* payload :=
    (if is_not_None expires_in then
       let* t := time_time in
       let* n := lift (py_int expires_in) in
       let expires_at := t + n - 60 in
       ret (<["expires_at" := PInt expires_at]> payload)
     else ret payload) in
  let payload := put_if_given "account_open_id" account_open_id payload in
  let* stamp := utcnow_isoformat in
  let payload := <["updated_at" := PStr stamp]> payload in
  db_upsert payload.

Definition token_url : string := BASE +:+ "/oauth/token/".

Definition refresh_access_token (refresh_token : pyval) : M pyval :=
  let* cfg := getenv in
  let* resp :=
    http (HttpPost token_url PNone
            (PDict {[ "client_key" := CLIENT_KEY cfg;
                      "client_secret" := CLIENT_SECRET cfg;
                      "grant_type" := PStr "refresh_token";
                      "refresh_token" := refresh_token ]})) in
  if 400 <=? status_code resp then
    let body :=
      match json resp with
      | Some b => b
      | None => PDict {[ "text" := PStr (text resp) ]}
      end in
    raise (HTTPException (status_code resp)
             (PDict {[ "oauth_refresh_error" := body ]}))
  else
    let* data := resp_json resp in
    let* access_token := lift (py_getitem data "access_token") in
    let* new_refresh := lift (py_get data "refresh_token" refresh_token) in
    let* scope := lift (py_get data "scope" PNone) in
    let* lifetime := lift (py_get data "expires_in" (PInt 3600)) in
    let* expires_in := lift (py_int lifetime) in
    upsert_tokens access_token new_refresh scope (PInt expires_in) PNone ;;;
    ret access_token.

Definition get_valid_access_token : M pyval :=
  let* row := get_tokens_row in
  match row with
  | None => raise (RuntimeError NO_TOKENS_MSG)
  | Some row =>
      if negb (truthy (PDict row)) then raise (RuntimeError NO_TOKENS_MSG) else
      let* now := time_time in
      let access_token := dict_get row "access_token" PNone in
      let expires_at := py_or (dict_get row "expires_at" PNone) (PInt 0) in
      let* fresh :=
        (if truthy access_token then
           let* e := lift (py_int expires_at) in ret (now <? e)
         else ret false) in
      if fresh then ret access_token else
      let refresh_token := dict_get row "refresh_token" PNone in
      if negb (truthy refresh_token) then raise (RuntimeError NO_REFRESH_MSG) else
      refresh_access_token refresh_token
  end.

(** [api_post]: the URL carries the field projection, the error body is only
    printed. *)
Definition api_post (path : string) (access_token : pyval) (body : pyval) : M pyval :=
  let url := BASE +:+ path +:+ "?fields=" +:+ join "," VIDEO_FIELDS in
  let* resp := http (HttpPost url access_token body) in
  (if 400 <=? status_code resp then raise_for_status resp else ret ()) ;;;
  resp_json resp.

(** The body of the [while True] loop of [fetch_all_videos], run at most
    [fuel] times.  Every round consumes one reply of the network, so
    [S (length inbox)] rounds are never used up. *)
Fixpoint fetch_pages (fuel : nat) (token : pyval) (max_count : Z)
    (cursor : pyval) (all_items : list pyval) : M (list pyval) :=
  match fuel with
  | O => raise RequestException
  | S fuel' =>
      let body : gmap string pyval :=
        {[ "max_count" := PInt max_count;
           "fields" := PList (PStr <$> VIDEO_FIELDS) ]} in
      let body := if truthy cursor then <["cursor" := cursor]> body else body in
      let* data := api_post "/video/list/" token (PDict body) in
      let* d := lift (py_get (py_or data (PDict ∅)) "data" PNone) in
      let* v := lift (py_get (py_or d (PDict ∅)) "videos" PNone) in
      let videos := py_or v (PList []) in
      let* items := lift (py_iter videos) in
      let all_items := (all_items ++ items)%list in
      let* d := lift (py_get (py_or data (PDict ∅)) "data" PNone) in
      let meta := py_or d (PDict ∅) in
      let* has_more := lift (py_get meta "has_more" (PBool false)) in
      let* cursor := lift (py_get meta "cursor" PNone) in
      if negb (truthy has_more) || negb (truthy cursor) then ret all_items
      else fetch_pages fuel' token max_count cursor all_items
  end.

Definition fetch_all_videos (max_count : Z) : M (list pyval) :=
  let* token := get_valid_access_token in
  let* fuel := rounds_left in
  fetch_pages fuel token max_count PNone [].

Definition call_n8n : M (gmap string pyval) :=
  let* videos := fetch_all_videos 20 in
  let* cfg := getenv in
  let* resp :=
    http (HttpPost (N8N_URL cfg) PNone (PDict {[ "items" := PList videos ]})) in
  ret ({[ "n8n_status" := PInt (status_code resp);
          "n8n_text" := PStr (str_prefix 500 (text resp));
          "count" := PInt (Z.of_nat (length videos)) ]} : gmap string pyval).

Section Endpoints.

(** [str(e)] on an exception, as the interpreter and the libraries that
    define the exception classes render it. *)
Variable str_exn : exn → string.

(** [GET /] *)
Definition run_now : M (gmap string pyval) :=
  try_except
    (let* result := call_n8n in
     ret (result ∪ {[ "ok" := PBool true ]}))
    (λ e, ret ({[ "ok" := PBool false; "error" := PStr (str_exn e) ]}
                 : gmap string pyval)).

End Endpoints.

Definition user_info_url : string :=
  BASE +:+ "/user/info/?fields=open_id,display_name,avatar_url".

(** [GET /oauth/tiktok/callback] *)
Definition oauth_callback (code state : pyval) : M (gmap string pyval) :=
  let* cfg := getenv in
  let* token_resp :=
    http (HttpPost token_url PNone
            (PDict {[ "client_key" := CLIENT_KEY cfg;
                      "client_secret" := CLIENT_SECRET cfg;
                      "grant_type" := PStr "authorization_code";
                      "code" := code;
                      "redirect_uri" := TIKTOK_REDIRECT_URI cfg ]})) in
  if 400 <=? status_code token_resp then
    let body :=
      match json token_resp with
      | Some b => b
      | None => PDict {[ "text" := PStr (text token_resp) ]}
      end in
    raise (HTTPException (status_code token_resp)
             (PDict {[ "oauth_code_error" := body ]}))
  else
    let* tok := resp_json token_resp in
    let* access_token := lift (py_getitem tok "access_token") in
    let* refresh_token := lift (py_get tok "refresh_token" PNone) in
    let* scope := lift (py_get tok "scope" PNone) in
    let* lifetime := lift (py_get tok "expires_in" (PInt 3600)) in
    let* expires_in := lift (py_int lifetime) in
    upsert_tokens access_token refresh_token scope (PInt expires_in) PNone ;;;
    let* info := http (HttpGet user_info_url access_token) in
    (if status_code info <? 400 then
       let* j := resp_json info in
       let* d := lift (py_get j "data" PNone) in
       let* u := lift (py_get (py_or d (PDict ∅)) "user" PNone) in
       let user := py_or u (PDict ∅) in
       let* open_id := lift (py_get user "open_id" PNone) in
       if truthy open_id then upsert_tokens PNone PNone PNone PNone open_id
       else ret ()
     else ret ()) ;;;
    ret ({[ "ok" := PBool true; "saved" := PBool true; "state" := state ]}
           : gmap string pyval).

(** [GET /refresh] *)
Definition force_refresh : M (gmap string pyval) :=
  let* row := get_tokens_row in
  let no_token :=
    match row with
    | None => true
    | Some r => negb (truthy (PDict r)) || negb (truthy (dict_get r "refresh_token" PNone))
    end in
  if no_token then
    raise (HTTPException 400 (PStr "No hay refresh_token guardado."))
  else
    let* refresh_token :=
      lift (py_getitem (PDict (default ∅ row)) "refresh_token") in
    let* new_access := refresh_access_token refresh_token in
    let* prefix := lift (py_prefix 12 new_access) in
    let* row' := get_tokens_row in
    let* expires_at :=
      lift (match row' with
            | Some r => inr (dict_get r "expires_at" PNone)
            | None => inl AttributeError
            end) in
    ret ({[ "ok" := PBool true; "access_token_prefix" := prefix;
            "expires_at" := expires_at ]} : gmap string pyval).

(** ** Views of the program used in the statements and proofs

    Each of these names a piece of one of the functions above; the lemmas
    ending in [_eq] below prove that the functions compute what the views
    say. *)

(** The end of [get_valid_access_token], once the stored token is unusable. *)
Definition refresh_or_fail (row : gmap string pyval) : M pyval :=
  let refresh_token := dict_get row "refresh_token" PNone in
  if truthy refresh_token then refresh_access_token refresh_token
  else raise (RuntimeError NO_REFRESH_MSG).

(** No row is stored, or the stored row has no refresh token and its access
    token is missing or has expired. *)
Definition lacks_usable_token (w : world) : Prop :=
  tokens_row w = None
  ∨ ∃ row, tokens_row w = Some row
      ∧ truthy (dict_get row "refresh_token" PNone) = false
      ∧ (truthy (dict_get row "access_token" PNone) = false
         ∨ ∃ e, row !! "expires_at" = Some (PInt e) ∧ e ≤ epoch (clock w (reads w))).

(** The payload [upsert_tokens] builds, given the expiry it computed (if
    any) and the time stamp it read. *)
Definition upsert_payload (a r s : pyval) (expires_at : option Z) (o : pyval)
    (stamp : string) : gmap string pyval :=
  let payload : gmap string pyval := {[ "provider" := PStr "tiktok" ]} in
  let payload := put_if_given "access_token" a payload in
  let payload := put_if_given "refresh_token" r payload in
  let payload := put_if_given "scope" s payload in
  let payload :=
    match expires_at with
    | Some e => <["expires_at" := PInt e]> payload
    | None => payload
    end in
  let payload := put_if_given "account_open_id" o payload in
  <["updated_at" := PStr stamp]> payload.

(** The world after the upsert of [payload]. *)
Definition written (payload : gmap string pyval) (w : world) : world :=
  set_row (payload ∪ default ∅ (tokens_row w)) (log (DbUpsert payload) w).

(** The columns a call of [upsert_tokens] names: the key, the time stamp,
    and one per argument that is not [None]. *)
Definition names_column (a r s e o : pyval) (k : string) : Prop :=
  k = "provider" ∨ k = "updated_at"
  ∨ (k = "access_token" ∧ a ≠ PNone)
  ∨ (k = "refresh_token" ∧ r ≠ PNone)
  ∨ (k = "scope" ∧ s ≠ PNone)
  ∨ (k = "expires_at" ∧ e ≠ PNone)
  ∨ (k = "account_open_id" ∧ o ≠ PNone).

(** The request of the refresh grant. *)
Definition refresh_request (cfg : config) (refresh_token : pyval) : event :=
  HttpPost token_url PNone
    (PDict {[ "client_key" := CLIENT_KEY cfg;
              "client_secret" := CLIENT_SECRET cfg;
              "grant_type" := PStr "refresh_token";
              "refresh_token" := refresh_token ]}).

(** What both token exchanges read from the provider's answer. *)
Definition read_grant (data : pyval) (old_refresh : pyval)
  : exn + (pyval * pyval * pyval * Z) :=
  match py_getitem data "access_token" with
  | inl x => inl x
  | inr access_token =>
      match py_get data "refresh_token" old_refresh with
      | inl x => inl x
      | inr new_refresh =>
          match py_get data "scope" PNone with
          | inl x => inl x
          | inr scope =>
              match py_get data "expires_in" (PInt 3600) with
              | inl x => inl x
              | inr lifetime =>
                  match py_int lifetime with
                  | inl x => inl x
                  | inr n => inr (access_token, new_refresh, scope, n)
                  end
              end
          end
      end
  end.

(** [try: body = resp.json() except Exception: body = {"text": resp.text}] *)
Definition error_body (resp : response) : pyval :=
  match json resp with
  | Some b => b
  | None => PDict {[ "text" := PStr (text resp) ]}
  end.

(** The requests of the listing. *)
Definition list_url : string :=
  BASE +:+ "/video/list/" +:+ "?fields=" +:+ join "," VIDEO_FIELDS.

Definition list_body (max_count : Z) (cursor : pyval) : gmap string pyval :=
  let body : gmap string pyval :=
    {[ "max_count" := PInt max_count;
       "fields" := PList (PStr <$> VIDEO_FIELDS) ]} in
  if truthy cursor then <["cursor" := cursor]> body else body.

Definition list_request (token : pyval) (max_count : Z) (cursor : pyval) : event :=
  HttpPost list_url token (PDict (list_body max_count cursor)).

(** What one round of the listing reads from a page. *)
Definition read_page (data : pyval) : exn + (list pyval * pyval * pyval) :=
  match py_get (py_or data (PDict ∅)) "data" PNone with
  | inl x => inl x
  | inr d =>
      let meta := py_or d (PDict ∅) in
      match py_get meta "videos" PNone with
      | inl x => inl x
      | inr v =>
          match py_iter (py_or v (PList [])) with
          | inl x => inl x
          | inr items =>
              match py_get meta "has_more" (PBool false) with
              | inl x => inl x
              | inr has_more =>
                  match py_get meta "cursor" PNone with
                  | inl x => inl x
                  | inr cursor => inr (items, has_more, cursor)
                  end
              end
          end
      end
  end.

(** A page of the listing as the provider documents it:
    [{data: {videos: [...], cursor, has_more}}], the last two optional. *)
Record page : Type := Page {
  videos : list pyval;
  has_more : option bool;
  cursor : option string;
}.

(** The JSON body of a page; absent fields are left out. *)
Definition page_meta (p : page) : gmap string pyval :=
  let m : gmap string pyval := {[ "videos" := PList (videos p) ]} in
  let m := match cursor p with Some c => <["cursor" := PStr c]> m | None => m end in
  match has_more p with Some b => <["has_more" := PBool b]> m | None => m end.

Definition page_json (p : page) : pyval :=
  PDict {[ "data" := PDict (page_meta p) ]}.

(** The page declares more results and supplies a non-empty cursor. *)
Definition declares_more (p : page) : Prop :=
  has_more p = Some true ∧ ∃ c, cursor p = Some c ∧ c ≠ "".

(** The cursor as the next request carries it. *)
Definition cursor_value (p : page) : pyval :=
  match cursor p with Some c => PStr c | None => PNone end.

(** The response is a success carrying the page. *)
Definition serves (r : response) (p : page) : Prop :=
  200 ≤ status_code r < 300 ∧ json r = Some (page_json p).

(** The request to the webhook. *)
Definition relay_request (cfg : config) (items : list pyval) : event :=
  HttpPost (N8N_URL cfg) PNone (PDict {[ "items" := PList items ]}).

(** The values written to column [expires_at] by the upserts of a trace. *)
Definition expiry_writes (tr : list event) : list pyval :=
  omap (λ ev, match ev with DbUpsert p => p !! "expires_at" | _ => None end) tr.

(** The calls made between two states of the world. *)
Definition new_events (w w' : world) : list event :=
  drop (length (trace w)) (trace w').

(** The expiry values a computation writes when run from [w]. *)
Definition expiry_of {A} (m : M A) (w : world) : list pyval :=
  expiry_writes (new_events w (m w).2).

(** A computation only ever adds to the trace ... *)
Definition appends {A} (m : M A) : Prop :=
  ∀ w, ∃ delta, trace (m w).2 = (trace w ++ delta)%list.

(** ... and a quiet one never writes [expires_at]. *)
Definition quiet {A} (m : M A) : Prop :=
  ∀ w, ∃ delta, trace (m w).2 = (trace w ++ delta)%list
                ∧ expiry_writes delta = [].

(** The lifetime a token response grants: its [expires_in], and 3600 when it
    has none. *)
Definition granted_lifetime (data : pyval) : option Z :=
  match data with
  | PDict d =>
      match d !! "expires_in" with
      | Some x => match py_int x with inr n => Some n | inl _ => None end
      | None => Some 3600
      end
  | _ => None
  end.

(** [v] is an expiry computed from the token response that the network gives
    to the first request made from [w]. *)
Definition from_grant (w : world) (v : pyval) : Prop :=
  ∃ resp rest data n k,
    inbox w = Reply resp :: rest
    ∧ status_code resp < 400
    ∧ json resp = Some data
    ∧ granted_lifetime data = Some n
    ∧ (reads w ≤ k)%nat
    ∧ v = PInt (epoch (clock w k) + n - 60).

(** Every expiry that [m] writes comes from a token response. *)
Definition expiry_from_grant {A} (m : M A) : Prop :=
  ∀ w v, v ∈ expiry_of m w → from_grant w v.

(** A computation that makes no HTTP request leaves the replies to come and
    the clock's future as they are. *)
Definition idle {A} (m : M A) : Prop :=
  ∀ w, inbox (m w).2 = inbox w ∧ clock (m w).2 = clock w
       ∧ (reads w ≤ reads (m w).2)%nat.

(** The property carried through the endpoints: the computation only adds
    to the trace, and every expiry it writes comes from a token response. *)
Definition sound {A} (m : M A) : Prop := appends m ∧ expiry_from_grant m.

(** The request of the authorization-code grant. *)
Definition code_request (cfg : config) (code : pyval) : event :=
  HttpPost token_url PNone
    (PDict {[ "client_key" := CLIENT_KEY cfg;
              "client_secret" := CLIENT_SECRET cfg;
              "grant_type" := PStr "authorization_code";
              "code" := code;
              "redirect_uri" := TIKTOK_REDIRECT_URI cfg ]}).

(** Step 3 of [oauth_callback] and its answer. *)
Definition callback_tail (access_token state : pyval) : M (gmap string pyval) :=
  let* info := http (HttpGet user_info_url access_token) in
  (if status_code info <? 400 then
     let* j := resp_json info in
     let* d := lift (py_get j "data" PNone) in
     let* u := lift (py_get (py_or d (PDict ∅)) "user" PNone) in
     let user := py_or u (PDict ∅) in
     let* open_id := lift (py_get user "open_id" PNone) in
     if truthy open_id then upsert_tokens PNone PNone PNone PNone open_id
     else ret ()
   else ret ()) ;;;
  ret ({[ "ok" := PBool true; "saved" := PBool true; "state" := state ]}
         : gmap string pyval).

(** What step 3 of [oauth_callback] reads from the user-info answer:
    [(info.json().get("data") or {}).get("user") or {}] and its [open_id]. *)
Definition read_open_id (j : pyval) : exn + pyval :=
  match py_get j "data" PNone with
  | inl x => inl x
  | inr d =>
      match py_get (py_or d (PDict ∅)) "user" PNone with
      | inl x => inl x
      | inr u => py_get (py_or u (PDict ∅)) "open_id" PNone
      end
  end.

(** The answer of a successful callback. *)
Definition callback_answer (state : pyval) : gmap string pyval :=
  {[ "ok" := PBool true; "saved" := PBool true; "state" := state ]}.

(** The world after the callback has stored the granted tokens. *)
Definition tokens_saved (code : pyval) (d : gmap string pyval) (a : pyval)
    (n : Z) (after : list reply) (w : world) : world :=
  written (upsert_payload a (dict_get d "refresh_token" PNone)
             (dict_get d "scope" PNone)
             (Some (epoch (clock w (reads w)) + n - 60)) PNone
             (isoformat (clock w (S (reads w)))))
    (tick (tick (set_inbox after (log (code_request (env w) code) w)))).

(** ** Sample worlds

    Concrete states of the outside world on which the statements below are
    exercised. *)

Definition sample_env : config :=
  Config "https://n8n.example/webhook/relay" (PStr "client-key")
    (PStr "client-secret") (PStr "https://app.example/oauth/tiktok/callback").

(** A clock that starts at second 1000 and advances one second per reading. *)
Definition sample_clock : nat → instant :=
  λ k, Instant (1000 + Z.of_nat k) "2025-01-01T00:16:40+00:00".

Definition world_of (row : option (gmap string pyval)) (replies : list reply)
  : world :=
  World sample_env row sample_clock 0 replies [].

(** [{access_token: "A", expires_at: now + 3600}] *)
Definition fresh_row : gmap string pyval :=
  {[ "provider" := PStr "tiktok"; "access_token" := PStr "A";
     "expires_at" := PInt 4600 ]}.

(** [{refresh_token: "R", expires_at: now - 10}] *)
Definition stale_row : gmap string pyval :=
  {[ "provider" := PStr "tiktok"; "refresh_token" := PStr "R";
     "expires_at" := PInt 990 ]}.

(** [{access_token: "B", expires_in: 3600}] *)
Definition grant_B : gmap string pyval :=
  {[ "access_token" := PStr "B"; "expires_in" := PInt 3600 ]}.

(** [{access_token: "B"}]: a token response that declares no lifetime. *)
Definition grant_without_lifetime : gmap string pyval :=
  {[ "access_token" := PStr "B" ]}.

(** A response with a JSON body. *)
Definition answer (status : Z) (body : pyval) : response :=
  Response status "" (Some body).

Definition page_one : page :=
  Page [PStr "v1"; PStr "v2"] (Some true) (Some "c1").

Definition page_two : page := Page [PStr "v3"] (Some false) None.

(** A webhook answer of 600 characters. *)
Definition long_text : string :=
  String.concat "" (replicate 60 "0123456789").

Definition two_page_world : world :=
  world_of (Some fresh_row)
    [Reply (answer 200 (page_json page_one));
     Reply (answer 200 (page_json page_two));
     Reply (Response 200 long_text None)].

(** [{access_token: "B", refresh_token: "R2", scope: "video.list",
      expires_in: 3600}]: a token response that rotates the refresh token. *)
Definition grant_rotated : gmap string pyval :=
  {[ "access_token" := PStr "B"; "refresh_token" := PStr "R2";
     "scope" := PStr "video.list"; "expires_in" := PInt 3600 ]}.

(** A row with both tokens whose access token expired ten seconds ago. *)
Definition expired_row : gmap string pyval :=
  {[ "provider" := PStr "tiktok"; "access_token" := PStr "A";
     "refresh_token" := PStr "R"; "expires_at" := PInt 990 ]}.

(** A row with both tokens and no expiry. *)
Definition undated_row : gmap string pyval :=
  {[ "provider" := PStr "tiktok"; "access_token" := PStr "A";
     "refresh_token" := PStr "R" ]}.

(** [{data: {user: {open_id: "open-1"}}}] *)
Definition user_info_body : gmap string pyval :=
  {[ "data" := PDict {[ "user" := PDict {[ "open_id" := PStr "open-1" ]} ]} ]}.

(** A first page with an integer cursor, as the provider sends them. *)
Definition numbered_page : gmap string pyval :=
  {[ "data" := PDict {[ "videos" := PList [PStr "v1"];
                        "has_more" := PBool true;
                        "cursor" := PInt 1700000000000 ]} ]}.

Definition closing_page : gmap string pyval :=
  {[ "data" := PDict {[ "videos" := PList [PStr "v2"] ]} ]}.

Definition refresh_world : world :=
  world_of (Some stale_row) [Reply (answer 200 (PDict grant_B))].

Definition callback_world : world :=
  world_of None
    [Reply (answer 200 (PDict grant_B));
     Reply (answer 200 (PDict user_info_body))].

(** * Verification *)

(** ** Python values *)

Lemma py_or_truthy (x y : pyval) : truthy x = true → py_or x y = x.
Proof. unfold py_or. by intros ->. Qed.

Lemma py_or_int_zero (e : Z) : py_or (PInt e) (PInt 0) = PInt e.
Proof.
  unfold py_or. simpl. destruct (Z.eqb_spec e 0) as [->|]; reflexivity.
Qed.

Lemma truthy_nonempty_str (s : string) : s ≠ "" → truthy (PStr s) = true.
Proof. destruct s; [congruence | reflexivity]. Qed.

Lemma is_not_None_false (v : pyval) : is_not_None v = false ↔ v = PNone.
Proof. destruct v; simpl; split; congruence. Qed.

Lemma str_prefix_length (n : nat) (s : string) :
  (String.length (str_prefix n s) ≤ n)%nat.
Proof.
  unfold str_prefix. revert s.
  induction n as [|n IH]; intros [|c s]; simpl; try lia.
  specialize (IH s). lia.
Qed.

(** ** The table *)

Lemma select_columns_lookup (r : gmap string pyval) (c : string) :
  c ∈ TOKEN_COLUMNS →
  select_columns TOKEN_COLUMNS r !! c = Some (dict_get r c PNone).
Proof.
  unfold TOKEN_COLUMNS. rewrite !elem_of_cons, elem_of_nil.
  intros H. repeat (destruct H as [->|H]; [vm_compute; reflexivity|]).
  destruct H.
Qed.

Lemma select_columns_get (r : gmap string pyval) (c : string) :
  c ∈ TOKEN_COLUMNS →
  dict_get (select_columns TOKEN_COLUMNS r) c PNone = dict_get r c PNone.
Proof.
  intros H. unfold dict_get at 1. by rewrite select_columns_lookup.
Qed.

Lemma select_columns_truthy (r : gmap string pyval) :
  truthy (PDict (select_columns TOKEN_COLUMNS r)) = true.
Proof.
  simpl. rewrite bool_decide_false; [reflexivity|].
  intros H%map_size_empty_inv. revert H.
  unfold select_columns, TOKEN_COLUMNS. simpl. apply insert_non_empty.
Qed.

(** ** The token lifecycle *)

Lemma dict_get_Some (d : gmap string pyval) (k : string) (v dflt : pyval) :
  d !! k = Some v → dict_get d k dflt = v.
Proof. unfold dict_get. by intros ->. Qed.

Lemma dict_get_None (d : gmap string pyval) (k : string) (dflt : pyval) :
  d !! k = None → dict_get d k dflt = dflt.
Proof. unfold dict_get. by intros ->. Qed.

Lemma get_tokens_row_eq (w : world) :
  get_tokens_row w
  = (inr (select_columns TOKEN_COLUMNS <$> tokens_row w), log DbSelect w).
Proof.
  unfold get_tokens_row, bind, db_select, ret. by destruct (tokens_row w).
Qed.

Lemma get_valid_access_token_eq (w : world) :
  get_valid_access_token w =
  match tokens_row w with
  | None => (inl (RuntimeError NO_TOKENS_MSG), log DbSelect w)
  | Some row =>
      let w1 := tick (log DbSelect w) in
      let access_token := dict_get row "access_token" PNone in
      if truthy access_token then
        match py_int (py_or (dict_get row "expires_at" PNone) (PInt 0)) with
        | inl e => (inl e, w1)
        | inr e =>
            if epoch (clock w (reads w)) <? e then (inr access_token, w1)
            else refresh_or_fail row w1
        end
      else refresh_or_fail row w1
  end.
Proof.
  unfold get_valid_access_token, bind at 1.
  rewrite get_tokens_row_eq.
  destruct (tokens_row w) as [row|]; [|reflexivity].
  cbn [fmap option_fmap option_map].
  rewrite select_columns_truthy. cbn [negb].
  unfold bind at 1. unfold time_time at 1, bind at 1, now, ret at 1.
  rewrite !select_columns_get by (unfold TOKEN_COLUMNS; set_solver).
  cbv zeta. unfold refresh_or_fail.
  destruct (truthy (dict_get row "access_token" PNone)).
  - unfold bind at 1, bind at 1, lift at 1.
    destruct (py_int _) as [e|e]; [reflexivity|].
    unfold ret at 1.
    cbn [clock reads log tick].
    destruct (_ <? e); [reflexivity|].
    by destruct (truthy (dict_get row "refresh_token" PNone)).
  - unfold bind at 1, ret at 1.
    by destruct (truthy (dict_get row "refresh_token" PNone)).
Qed.

(** C1. When the stored row holds a non-empty access token and an expiry
    strictly later than the clock's reading, [get_valid_access_token] returns
    that token as it is stored; its only outbound call is the read of the
    table: no request goes to the provider's token endpoint, no reply of the
    network is consumed and the row is left as it is. *)
Theorem fresh_token_is_returned (w : world) (row : gmap string pyval)
    (a : string) (e : Z) :
  tokens_row w = Some row →
  row !! "access_token" = Some (PStr a) → a ≠ "" →
  row !! "expires_at" = Some (PInt e) →
  epoch (clock w (reads w)) < e →
  ∃ w', get_valid_access_token w = (inr (PStr a), w')
        ∧ trace w' = (trace w ++ [DbSelect])%list
        ∧ inbox w' = inbox w
        ∧ tokens_row w' = tokens_row w.
Proof.
  intros Hrow Ha Hne He Hlt.
  rewrite get_valid_access_token_eq, Hrow. cbv zeta.
  rewrite (dict_get_Some _ _ _ _ Ha), (dict_get_Some _ _ _ _ He).
  rewrite (truthy_nonempty_str a Hne), py_or_int_zero. cbn [py_int].
  apply Z.ltb_lt in Hlt. rewrite Hlt.
  eexists. split; [reflexivity|]. by repeat split.
Qed.

(** C4. When no row is stored, or the stored row has no refresh token and
    its access token is missing or expired, [get_valid_access_token] raises
    the configuration error ([RuntimeError]); its only outbound call is the
    read of the table, so nothing is asked of the provider. *)
Theorem no_usable_token_is_configuration_error (w : world) :
  lacks_usable_token w →
  ∃ msg w', get_valid_access_token w = (inl (RuntimeError msg), w')
        ∧ trace w' = (trace w ++ [DbSelect])%list
        ∧ inbox w' = inbox w
        ∧ tokens_row w' = tokens_row w.
Proof.
  intros [Hnone | (row & Hrow & Hrt & Hat)];
    rewrite get_valid_access_token_eq.
  - rewrite Hnone. eexists _, _. by repeat split.
  - rewrite Hrow. cbv zeta. unfold refresh_or_fail. rewrite Hrt.
    destruct Hat as [-> | (e & He & Hle)].
    + eexists _, _. by repeat split.
    + destruct (truthy (dict_get row "access_token" PNone)).
      * rewrite (dict_get_Some _ _ _ _ He).
        rewrite py_or_int_zero. cbn [py_int].
        apply Z.ltb_ge in Hle. rewrite Hle.
        eexists _, _. by repeat split.
      * eexists _, _. by repeat split.
Qed.

(** ** Upsert *)

Lemma upsert_tokens_eq (a r s e o : pyval) (w : world) :
  upsert_tokens a r s e o w =
  if is_not_None e then
    match py_int e with
    | inl x => (inl x, tick w)
    | inr n =>
        let t := epoch (clock w (reads w)) in
        let stamp := isoformat (clock w (S (reads w))) in
        (inr (), written (upsert_payload a r s (Some (t + n - 60)) o stamp)
                   (tick (tick w)))
    end
  else
    let stamp := isoformat (clock w (reads w)) in
    (inr (), written (upsert_payload a r s None o stamp) (tick w)).
Proof.
  unfold upsert_tokens, upsert_payload. cbv zeta.
  destruct (is_not_None e).
  - unfold bind at 1, bind at 1, time_time at 1, bind at 1, now at 1, ret at 1.
    unfold bind at 1, lift at 1.
    destruct (py_int e) as [x|n]; reflexivity.
  - reflexivity.
Qed.

Lemma is_not_None_true (v : pyval) : is_not_None v = true ↔ v ≠ PNone.
Proof. destruct v; simpl; split; congruence. Qed.

Lemma put_if_given_lookup (k' : string) (v : pyval) (m : gmap string pyval)
    (k : string) :
  put_if_given k' v m !! k
  = if is_not_None v && bool_decide (k' = k) then Some v else m !! k.
Proof.
  unfold put_if_given. destruct (is_not_None v); [|reflexivity].
  rewrite lookup_insert. cbn [andb]. by repeat case_bool_decide; case_decide.
Qed.

Lemma put_if_given_lookup_ne (k' : string) (v : pyval) (m : gmap string pyval)
    (k : string) :
  k' ≠ k → put_if_given k' v m !! k = m !! k.
Proof.
  intros H. rewrite put_if_given_lookup, (bool_decide_false _ H).
  by rewrite andb_false_r.
Qed.

Lemma put_if_given_lookup_eq (k : string) (v : pyval) (m : gmap string pyval) :
  v ≠ PNone → put_if_given k v m !! k = Some v.
Proof.
  intros H%is_not_None_true. rewrite put_if_given_lookup, H.
  by rewrite bool_decide_true.
Qed.

Lemma put_if_given_lookup_Some (k' : string) (v : pyval)
    (m : gmap string pyval) (k : string) (x : pyval) :
  put_if_given k' v m !! k = Some x →
  (k = k' ∧ x = v ∧ v ≠ PNone) ∨ (m !! k = Some x).
Proof.
  rewrite put_if_given_lookup.
  destruct (is_not_None v) eqn:Hv; cbn [andb]; [|by right].
  apply is_not_None_true in Hv.
  case_bool_decide; [|by right]. intros [= <-]. by left.
Qed.

Lemma upsert_payload_lookup (a r s : pyval) (ea : option Z) (o : pyval)
    (stamp k : string) (v : pyval) :
  upsert_payload a r s ea o stamp !! k = Some v →
  v ≠ PNone
  ∧ (k = "provider" ∨ k = "updated_at"
     ∨ (k = "access_token" ∧ a ≠ PNone)
     ∨ (k = "refresh_token" ∧ r ≠ PNone)
     ∨ (k = "scope" ∧ s ≠ PNone)
     ∨ (k = "expires_at" ∧ is_Some ea)
     ∨ (k = "account_open_id" ∧ o ≠ PNone)).
Proof.
  unfold upsert_payload. cbv zeta.
  intros H.
  apply lookup_insert_Some in H as [[<- <-] | [_ H]]; [naive_solver|].
  apply put_if_given_lookup_Some in H as [(-> & -> & ?) | H]; [naive_solver|].
  assert (put_if_given "scope" s
            (put_if_given "refresh_token" r
               (put_if_given "access_token" a {["provider" := PStr "tiktok"]}))
          !! k = Some v → v ≠ PNone
    ∧ (k = "provider" ∨ k = "updated_at"
       ∨ (k = "access_token" ∧ a ≠ PNone)
       ∨ (k = "refresh_token" ∧ r ≠ PNone)
       ∨ (k = "scope" ∧ s ≠ PNone)
       ∨ (k = "expires_at" ∧ is_Some ea)
       ∨ (k = "account_open_id" ∧ o ≠ PNone))) as Hrest.
  { clear H. intros H.
    apply put_if_given_lookup_Some in H as [(-> & -> & ?) | H]; [naive_solver|].
    apply put_if_given_lookup_Some in H as [(-> & -> & ?) | H]; [naive_solver|].
    apply put_if_given_lookup_Some in H as [(-> & -> & ?) | H]; [naive_solver|].
    apply lookup_singleton_Some in H as [<- <-]. naive_solver. }
  destruct ea as [e|]; [|by apply Hrest].
  apply lookup_insert_Some in H as [[<- <-] | [_ H]]; [|by apply Hrest].
  split; [done|]. do 5 right. left. by split.
Qed.

Lemma column_written (p : gmap string pyval) (w : world) (k : string) :
  column (written p w) k
  = match p !! k with Some v => Some v | None => column w k end.
Proof.
  unfold column, written. cbn [tokens_row set_row mbind option_bind].
  rewrite lookup_union.
  destruct (p !! k) as [v|] eqn:Hp.
  - by destruct (default ∅ (tokens_row w) !! k).
  - destruct (tokens_row w) as [row|]; cbn [default from_option id mbind option_bind].
    + by destruct (row !! k).
    + by rewrite lookup_empty.
Qed.

Lemma upsert_payload_value (a r s : pyval) (ea : option Z) (o : pyval)
    (stamp : string) :
  let p := upsert_payload a r s ea o stamp in
  p !! "updated_at" = Some (PStr stamp)
  ∧ (a ≠ PNone → p !! "access_token" = Some a)
  ∧ (r ≠ PNone → p !! "refresh_token" = Some r)
  ∧ (s ≠ PNone → p !! "scope" = Some s)
  ∧ (∀ e, ea = Some e → p !! "expires_at" = Some (PInt e))
  ∧ (o ≠ PNone → p !! "account_open_id" = Some o).
Proof.
  unfold upsert_payload. cbv zeta.
  split; [apply lookup_insert_eq|].
  rewrite !(lookup_insert_ne _ "updated_at") by done.
  split; [|split; [|split; [|split]]].
  - intros Ha. rewrite put_if_given_lookup_ne by done.
    destruct ea; [rewrite lookup_insert_ne by done|];
      rewrite !put_if_given_lookup_ne by done;
      by apply put_if_given_lookup_eq.
  - intros Hr. rewrite put_if_given_lookup_ne by done.
    destruct ea; [rewrite lookup_insert_ne by done|];
      rewrite !put_if_given_lookup_ne by done;
      by apply put_if_given_lookup_eq.
  - intros Hs. rewrite put_if_given_lookup_ne by done.
    destruct ea; [rewrite lookup_insert_ne by done|];
      by apply put_if_given_lookup_eq.
  - intros e ->. rewrite put_if_given_lookup_ne by done.
    apply lookup_insert_eq.
  - intros Ho. by apply put_if_given_lookup_eq.
Qed.

(** C5. [upsert_tokens] changes no column other than those its arguments
    name (with the key column and [updated_at]); it never stores [None] in a
    column that did not hold it and never removes a column; when the call is
    well typed it succeeds, every named column takes the value given,
    [expires_at] the clock's reading plus the lifetime minus 60, and
    [updated_at] the time stamp read last; in particular a call that does not
    give an access token, such as one that gives only [account_open_id],
    leaves the stored access token as it is. *)
Theorem upsert_changes_only_named_columns (a r s e o : pyval) (w : world) :
  let w' := (upsert_tokens a r s e o w).2 in
  (∀ k, ¬ names_column a r s e o k → column w' k = column w k)
  ∧ (∀ k, column w' k = Some PNone → column w k = Some PNone)
  ∧ (∀ k, is_Some (column w k) → is_Some (column w' k))
  ∧ (e = PNone ∨ (∃ n, e = PInt n) →
     (upsert_tokens a r s e o w).1 = inr ()
     ∧ column w' "updated_at"
       = Some (PStr (isoformat
           (clock w (if is_not_None e then S (reads w) else reads w))))
     ∧ (a ≠ PNone → column w' "access_token" = Some a)
     ∧ (r ≠ PNone → column w' "refresh_token" = Some r)
     ∧ (s ≠ PNone → column w' "scope" = Some s)
     ∧ (∀ n, e = PInt n →
          column w' "expires_at"
          = Some (PInt (epoch (clock w (reads w)) + n - 60)))
     ∧ (o ≠ PNone → column w' "account_open_id" = Some o))
  ∧ (a = PNone → column w' "access_token" = column w "access_token").
Proof.
  cbv zeta. rewrite upsert_tokens_eq.
  assert (∀ ea stamp w0,
    (∀ k, column w0 k = column w k) →
    (is_Some ea → e ≠ PNone) →
    let w' := written (upsert_payload a r s ea o stamp) w0 in
    (∀ k, ¬ names_column a r s e o k → column w' k = column w k)
    ∧ (∀ k, column w' k = Some PNone → column w k = Some PNone)
    ∧ (∀ k, is_Some (column w k) → is_Some (column w' k))
    ∧ (a = PNone → column w' "access_token" = column w "access_token"))
    as Hframe.
  { intros ea stamp w0 Hw0 Hea. cbv zeta.
    assert (∀ k, ¬ names_column a r s e o k →
                 column (written (upsert_payload a r s ea o stamp) w0) k
                 = column w k) as Hfr.
    { intros k Hk. rewrite column_written, Hw0.
      destruct (upsert_payload a r s ea o stamp !! k) as [v|] eqn:Hp; [|done].
      apply upsert_payload_lookup in Hp as [_ Hp]. destruct Hk.
      unfold names_column. naive_solver. }
    split; [exact Hfr|]. split; [|split].
    - intros k. rewrite column_written, Hw0.
      destruct (upsert_payload a r s ea o stamp !! k) as [v|] eqn:Hp; [|done].
      apply upsert_payload_lookup in Hp as [Hv _]. by intros [= ->].
    - intros k. rewrite column_written, Hw0.
      by destruct (upsert_payload a r s ea o stamp !! k).
    - intros ->. apply Hfr. unfold names_column. naive_solver. }
  destruct (is_not_None e) eqn:He.
  - apply is_not_None_true in He.
    destruct (py_int e) as [x|n] eqn:Hint; cbn [fst snd].
    + split; [done|]. split; [done|]. split; [done|]. split; [|done].
      intros [->|[n ->]]; [done | discriminate].
    + destruct (Hframe (Some (epoch (clock w (reads w)) + n - 60))
                  (isoformat (clock w (S (reads w)))) (tick (tick w)))
        as (H1 & H2 & H3 & H4); [done | done |].
      split; [exact H1|]. split; [exact H2|]. split; [exact H3|].
      split; [|exact H4].
      intros _. split; [done|]. rewrite !column_written.
      destruct (upsert_payload_value a r s
                  (Some (epoch (clock w (reads w)) + n - 60)) o
                  (isoformat (clock w (S (reads w)))))
        as (Hu & Ha & Hr & Hs & Hx & Ho).
      rewrite Hu. split; [done|].
      split; [intros ?; by rewrite Ha|].
      split; [intros ?; by rewrite Hr|].
      split; [intros ?; by rewrite Hs|].
      split; [|intros ?; by rewrite Ho].
      intros n' ->. cbn in Hint. injection Hint as <-. by rewrite (Hx _ eq_refl).
  - apply is_not_None_false in He. subst e. cbn [fst snd].
    destruct (Hframe None (isoformat (clock w (reads w))) (tick w))
      as (H1 & H2 & H3 & H4); [done | by intros [? [=]] |].
    split; [exact H1|]. split; [exact H2|]. split; [exact H3|].
    split; [|exact H4].
    intros _. split; [done|]. rewrite !column_written.
    destruct (upsert_payload_value a r s None o (isoformat (clock w (reads w))))
      as (Hu & Ha & Hr & Hs & Hx & Ho).
    rewrite Hu. split; [done|].
    split; [intros ?; by rewrite Ha|].
    split; [intros ?; by rewrite Hr|].
    split; [intros ?; by rewrite Hs|].
    split; [|intros ?; by rewrite Ho].
    intros n' [=].
Qed.

(** ** Refresh *)

Lemma http_eq (ev : event) (w : world) :
  http ev w =
  match inbox w with
  | Reply r :: rest => (inr r, set_inbox rest (log ev w))
  | NoReply :: rest => (inl RequestException, set_inbox rest (log ev w))
  | [] => (inl RequestException, log ev w)
  end.
Proof. reflexivity. Qed.

Lemma refresh_access_token_eq (rt : pyval) (w : world) :
  refresh_access_token rt w =
  let ev := refresh_request (env w) rt in
  match inbox w with
  | [] => (inl RequestException, log ev w)
  | NoReply :: rest => (inl RequestException, set_inbox rest (log ev w))
  | Reply resp :: rest =>
      let w1 := set_inbox rest (log ev w) in
      if 400 <=? status_code resp then
        (inl (HTTPException (status_code resp)
                (PDict {[ "oauth_refresh_error" := error_body resp ]})), w1)
      else
        match json resp with
        | None => (inl JSONDecodeError, w1)
        | Some data =>
            match read_grant data rt with
            | inl x => (inl x, w1)
            | inr (access_token, new_refresh, scope, n) =>
                let t := epoch (clock w (reads w)) in
                let stamp := isoformat (clock w (S (reads w))) in
                (inr access_token,
                 written (upsert_payload access_token new_refresh scope
                            (Some (t + n - 60)) PNone stamp)
                   (tick (tick w1)))
            end
        end
  end.
Proof.
  unfold refresh_access_token. unfold bind at 1, getenv at 1, bind at 1.
  rewrite http_eq. cbv zeta. fold (refresh_request (env w) rt).
  destruct (inbox w) as [|[resp|] rest]; [reflexivity| |reflexivity].
  destruct (400 <=? status_code resp); [reflexivity|].
  unfold bind at 1, resp_json. destruct (json resp) as [data|]; [|reflexivity].
  unfold ret at 1, read_grant.
  unfold bind at 1, lift at 1.
  destruct (py_getitem data "access_token") as [x|access_token]; [reflexivity|].
  unfold bind at 1, lift at 1.
  destruct (py_get data "refresh_token" rt) as [x|new_refresh]; [reflexivity|].
  unfold bind at 1, lift at 1.
  destruct (py_get data "scope" PNone) as [x|scope]; [reflexivity|].
  unfold bind at 1, lift at 1.
  destruct (py_get data "expires_in" (PInt 3600)) as [x|lifetime]; [reflexivity|].
  unfold bind at 1, lift at 1.
  destruct (py_int lifetime) as [x|n]; [reflexivity|].
  unfold bind at 1. rewrite upsert_tokens_eq. reflexivity.
Qed.

Lemma trace_written (p : gmap string pyval) (w : world) :
  trace (written p w) = (trace w ++ [DbUpsert p])%list.
Proof. reflexivity. Qed.

(** C2. When the stored expiry is not later than the clock's reading and a
    refresh token is stored, and the provider answers the refresh with a 2xx
    response that carries access token [B] and lifetime [n], then exactly one
    refresh request is made (between the read and the write of the table),
    [B] is returned, and the row then holds access token [B] and as expiry
    the clock's reading at the write plus [n] minus 60; and when the response
    carries no rotated refresh token (the key is absent, or null), the row
    still holds the refresh token it held before. *)
Theorem expired_token_is_refreshed_once (w : world) (row : gmap string pyval)
    (R B : string) (e n : Z) (resp : response) (d : gmap string pyval)
    (rest : list reply) :
  tokens_row w = Some row →
  row !! "refresh_token" = Some (PStr R) → R ≠ "" →
  row !! "expires_at" = Some (PInt e) →
  e ≤ epoch (clock w (reads w)) →
  inbox w = Reply resp :: rest →
  200 ≤ status_code resp < 300 →
  json resp = Some (PDict d) →
  d !! "access_token" = Some (PStr B) →
  d !! "expires_in" = Some (PInt n) →
  ∃ w' payload,
    get_valid_access_token w = (inr (PStr B), w')
    ∧ trace w'
      = (trace w ++ [DbSelect; refresh_request (env w) (PStr R);
                     DbUpsert payload])%list
    ∧ inbox w' = rest
    ∧ column w' "access_token" = Some (PStr B)
    ∧ column w' "expires_at"
      = Some (PInt (epoch (clock w (S (reads w))) + n - 60))
    ∧ (d !! "refresh_token" = None ∨ d !! "refresh_token" = Some PNone →
       column w' "refresh_token" = Some (PStr R)).
Proof.
  intros Hrow HR HRne He Hle Hin Hst Hjs HB Hn.
  rewrite get_valid_access_token_eq, Hrow. cbv zeta.
  assert (refresh_or_fail row (tick (log DbSelect w))
          = refresh_access_token (PStr R) (tick (log DbSelect w))) as Hrf.
  { unfold refresh_or_fail. rewrite (dict_get_Some _ _ _ _ HR).
    by rewrite (truthy_nonempty_str R HRne). }
  assert (∃ w' payload,
    refresh_access_token (PStr R) (tick (log DbSelect w)) = (inr (PStr B), w')
    ∧ trace w'
      = (trace w ++ [DbSelect; refresh_request (env w) (PStr R);
                     DbUpsert payload])%list
    ∧ inbox w' = rest
    ∧ column w' "access_token" = Some (PStr B)
    ∧ column w' "expires_at"
      = Some (PInt (epoch (clock w (S (reads w))) + n - 60))
    ∧ (d !! "refresh_token" = None ∨ d !! "refresh_token" = Some PNone →
       column w' "refresh_token" = Some (PStr R)))
    as (w' & payload & Hrun & Hw').
  { rewrite refresh_access_token_eq. cbv zeta.
    cbn [inbox tick log env clock reads]. rewrite Hin.
    assert ((400 <=? status_code resp) = false) as -> by lia.
    rewrite Hjs. unfold read_grant, py_getitem, py_get.
    rewrite HB, (dict_get_Some _ _ _ _ Hn).
    cbn [py_int].
    set (kept := dict_get d "refresh_token" (PStr R)).
    set (p := upsert_payload (PStr B) kept (dict_get d "scope" PNone)
                (Some (epoch (clock w (S (reads w))) + n - 60)) PNone
                (isoformat (clock w (S (S (reads w)))))).
    exists (written p
              (tick (tick (set_inbox rest
                 (log (refresh_request (env w) (PStr R))
                    (tick (log DbSelect w))))))), p.
    split; [reflexivity|].
    rewrite trace_written, !column_written.
    destruct (upsert_payload_value (PStr B) kept (dict_get d "scope" PNone)
                (Some (epoch (clock w (S (reads w))) + n - 60)) PNone
                (isoformat (clock w (S (S (reads w))))))
      as (_ & Ha & Hr & _ & Hx & _). fold p in Ha, Hr, Hx.
    rewrite Ha, (Hx _ eq_refl) by done.
    cbn [trace tick set_inbox log inbox]. rewrite <- !app_assoc.
    split; [reflexivity|]. split; [reflexivity|].
    split; [reflexivity|]. split; [reflexivity|].
    intros [Hnone | Hnull].
    - subst kept. rewrite (dict_get_None _ _ _ Hnone) in Hr.
      by rewrite Hr.
    - destruct (p !! "refresh_token") as [v|] eqn:Hp.
      + apply upsert_payload_lookup in Hp as [_ Hp]. subst kept.
        rewrite (dict_get_Some _ _ _ _ Hnull) in Hp. naive_solver.
      + unfold column. cbn [tokens_row tick set_inbox log].
        rewrite Hrow. exact HR. }
  rewrite Hrf, Hrun.
  destruct (truthy (dict_get row "access_token" PNone)).
  - rewrite (dict_get_Some _ _ _ _ He), py_or_int_zero. cbn [py_int].
    assert ((epoch (clock w (reads w)) <? e) = false) as -> by lia.
    by exists w', payload.
  - by exists w', payload.
Qed.

(** C7, amended. When the token endpoint answers the refresh with a status
    of 400 or more, [refresh_access_token] raises [HTTPException] carrying
    that status and the response body (the parsed JSON, or the raw text under
    key [text]), after a single request. *)
Theorem refresh_error_status_is_raised (rt : pyval) (w : world)
    (resp : response) (rest : list reply) :
  inbox w = Reply resp :: rest →
  400 ≤ status_code resp →
  ∃ w',
    refresh_access_token rt w
    = (inl (HTTPException (status_code resp)
              (PDict {[ "oauth_refresh_error" := error_body resp ]})), w')
    ∧ trace w' = (trace w ++ [refresh_request (env w) rt])%list
    ∧ inbox w' = rest.
Proof.
  intros Hin Hst. rewrite refresh_access_token_eq, Hin. cbv zeta.
  assert ((400 <=? status_code resp) = true) as -> by lia.
  eexists. by repeat split.
Qed.

(** C10. When the token endpoint's answer takes the error branch the refresh
    raises; and whenever the refresh raises, its only outbound call was the
    request to the token endpoint: no upsert was made and the stored row is
    exactly the one it was before. *)
Theorem failed_refresh_leaves_row (rt : pyval) (w : world) :
  (∀ resp rest, inbox w = Reply resp :: rest → 400 ≤ status_code resp →
     ∃ e, (refresh_access_token rt w).1 = inl e)
  ∧ (∀ e, (refresh_access_token rt w).1 = inl e →
       tokens_row (refresh_access_token rt w).2 = tokens_row w
       ∧ trace (refresh_access_token rt w).2
         = (trace w ++ [refresh_request (env w) rt])%list).
Proof.
  rewrite refresh_access_token_eq. cbv zeta. split.
  - intros resp rest -> Hst.
    assert ((400 <=? status_code resp) = true) as -> by lia. by eexists.
  - intros e.
    destruct (inbox w) as [|[resp|] rest]; [done| |done].
    destruct (400 <=? status_code resp); [done|].
    destruct (json resp) as [data|]; [|done].
    destruct (read_grant data rt) as [x|[[[a r] s] n]]; [done|].
    discriminate.
Qed.

(** ** Listing *)

Lemma api_post_eq (path : string) (token body : pyval) (w : world) :
  api_post path token body w =
  let ev := HttpPost (BASE +:+ path +:+ "?fields=" +:+ join "," VIDEO_FIELDS)
              token body in
  match inbox w with
  | [] => (inl RequestException, log ev w)
  | NoReply :: rest => (inl RequestException, set_inbox rest (log ev w))
  | Reply resp :: rest =>
      let w1 := set_inbox rest (log ev w) in
      if (400 <=? status_code resp) && (status_code resp <? 600)
      then (inl (HTTPError (status_code resp)), w1)
      else match json resp with
           | Some v => (inr v, w1)
           | None => (inl JSONDecodeError, w1)
           end
  end.
Proof.
  unfold api_post. cbv zeta. unfold bind at 1. rewrite http_eq.
  destruct (inbox w) as [|[resp|] rest]; [reflexivity| |reflexivity].
  unfold bind at 1, raise_for_status, resp_json.
  destruct (400 <=? status_code resp) eqn:H4; cbn [andb].
  - destruct (status_code resp <? 600); [reflexivity|].
    unfold ret at 1. by destruct (json resp).
  - unfold ret at 1. by destruct (json resp).
Qed.

Lemma fetch_pages_eq (fuel : nat) (token : pyval) (max_count : Z)
    (cursor : pyval) (all_items : list pyval) (w : world) :
  fetch_pages (S fuel) token max_count cursor all_items w =
  match api_post "/video/list/" token (PDict (list_body max_count cursor)) w with
  | (inl e, w1) => (inl e, w1)
  | (inr data, w1) =>
      match read_page data with
      | inl e => (inl e, w1)
      | inr (items, has_more, next) =>
          if negb (truthy has_more) || negb (truthy next)
          then (inr (all_items ++ items)%list, w1)
          else fetch_pages fuel token max_count next (all_items ++ items)%list w1
      end
  end.
Proof.
  cbn [fetch_pages]. fold (list_body max_count cursor).
  unfold bind at 1.
  destruct (api_post _ _ _ w) as [[e|data] w1]; [reflexivity|].
  unfold read_page. cbv zeta.
  unfold bind at 1, lift at 1.
  destruct (py_get (py_or data (PDict ∅)) "data" PNone) as [x|d]; [reflexivity|].
  unfold bind at 1, lift at 1.
  destruct (py_get (py_or d (PDict ∅)) "videos" PNone) as [x|v]; [reflexivity|].
  unfold bind at 1, lift at 1.
  destruct (py_iter (py_or v (PList []))) as [x|items]; [reflexivity|].
  unfold bind at 1, lift at 1.
  unfold bind at 1, lift at 1.
  destruct (py_get (py_or d (PDict ∅)) "has_more" (PBool false)) as [x|hm];
    [reflexivity|].
  unfold bind at 1, lift at 1.
  destruct (py_get (py_or d (PDict ∅)) "cursor" PNone) as [x|c]; [reflexivity|].
  by destruct (negb (truthy hm) || negb (truthy c)).
Qed.

(** The rounds allowed to the loop are never used up: with more rounds than
    replies to come, their number does not matter. *)
Lemma fetch_pages_fuel (f1 : nat) :
  ∀ (f2 : nat) (token : pyval) (max_count : Z) (c0 : pyval)
    (all_items : list pyval) (w : world),
  (length (inbox w) < f1)%nat → (length (inbox w) < f2)%nat →
  fetch_pages f1 token max_count c0 all_items w
  = fetch_pages f2 token max_count c0 all_items w.
Proof.
  induction f1 as [|f1 IH]; intros f2 token max_count c0 all_items w H1 H2;
    [lia|].
  destruct f2 as [|f2]; [lia|].
  rewrite !fetch_pages_eq, api_post_eq. cbv zeta.
  destruct (inbox w) as [|[resp|] rest] eqn:Hin; try reflexivity.
  destruct ((400 <=? status_code resp) && (status_code resp <? 600));
    [reflexivity|].
  destruct (json resp) as [data|]; [|reflexivity].
  destruct (read_page data) as [x|[[items has_more] next]]; [reflexivity|].
  destruct (negb (truthy has_more) || negb (truthy next)); [reflexivity|].
  apply IH; cbn [inbox set_inbox log]; simpl in H1, H2; lia.
Qed.

Lemma truthy_dict_lookup (d : gmap string pyval) (k : string) (v : pyval) :
  d !! k = Some v → truthy (PDict d) = true.
Proof.
  intros H. simpl. rewrite bool_decide_false; [reflexivity|].
  intros ->%map_size_empty_inv. by rewrite lookup_empty in H.
Qed.

Lemma page_meta_videos (p : page) :
  page_meta p !! "videos" = Some (PList (videos p)).
Proof.
  unfold page_meta. cbv zeta.
  destruct (has_more p), (cursor p);
    rewrite ?lookup_insert_ne by done; apply lookup_singleton_eq.
Qed.

Lemma page_meta_has_more (p : page) :
  dict_get (page_meta p) "has_more" (PBool false)
  = PBool (default false (has_more p)).
Proof.
  unfold page_meta, dict_get. cbv zeta.
  destruct (has_more p), (cursor p);
    rewrite ?lookup_insert_eq, ?lookup_insert_ne by done; try reflexivity;
    by rewrite lookup_singleton_ne.
Qed.

Lemma page_meta_cursor (p : page) :
  dict_get (page_meta p) "cursor" PNone = cursor_value p.
Proof.
  unfold page_meta, dict_get, cursor_value. cbv zeta.
  destruct (has_more p), (cursor p);
    rewrite ?(lookup_insert_ne _ "has_more") by done;
    rewrite ?lookup_insert_eq; try reflexivity;
    by rewrite lookup_singleton_ne.
Qed.

Lemma py_iter_or_list (l : list pyval) :
  py_iter (py_or (PList l) (PList [])) = inr l.
Proof. by destruct l. Qed.

Lemma read_page_json (p : page) :
  read_page (page_json p)
  = inr (videos p, PBool (default false (has_more p)), cursor_value p).
Proof.
  unfold read_page, page_json.
  rewrite (py_or_truthy (PDict {["data" := PDict (page_meta p)]}))
    by (eapply truthy_dict_lookup, lookup_singleton_eq).
  cbn [py_get]. rewrite (dict_get_Some _ _ _ _ (lookup_singleton_eq _ _)).
  cbv zeta.
  rewrite (py_or_truthy (PDict (page_meta p)))
    by (eapply truthy_dict_lookup, page_meta_videos).
  cbn [py_get]. rewrite (dict_get_Some _ _ _ _ (page_meta_videos p)).
  by rewrite py_iter_or_list, page_meta_has_more, page_meta_cursor.
Qed.

Lemma declares_more_continue (p : page) :
  declares_more p →
  negb (truthy (PBool (default false (has_more p))))
  || negb (truthy (cursor_value p)) = false.
Proof.
  intros [-> (c & Hc & Hne)]. unfold cursor_value. rewrite Hc.
  by rewrite (truthy_nonempty_str c Hne).
Qed.

Lemma not_declares_more_stop (p : page) :
  ¬ declares_more p →
  negb (truthy (PBool (default false (has_more p))))
  || negb (truthy (cursor_value p)) = true.
Proof.
  unfold declares_more, cursor_value. intros H.
  destruct (has_more p) as [[|]|]; try reflexivity.
  destruct (cursor p) as [[|a c]|]; try reflexivity.
  destruct H. split; [done|]. by eexists.
Qed.

Lemma fetch_pages_run (pre : list page) :
  ∀ (fuel : nat) (token : pyval) (max_count : Z) (c0 : pyval)
    (all_items : list pyval) (w : world) (last : page) (rs : list response)
    (rest : list reply),
  (length pre < fuel)%nat →
  inbox w = ((Reply <$> rs) ++ rest)%list →
  Forall2 serves rs (pre ++ [last]) →
  Forall declares_more pre →
  ¬ declares_more last →
  ∃ w',
    fetch_pages fuel token max_count c0 all_items w
    = (inr (all_items ++ concat (videos <$> (pre ++ [last])))%list, w')
    ∧ inbox w' = rest
    ∧ trace w'
      = (trace w
         ++ (list_request token max_count <$> (c0 :: (cursor_value <$> pre))))%list
    ∧ tokens_row w' = tokens_row w.
Proof.
  induction pre as [|p pre IH];
    intros fuel token max_count c0 all_items w last rs rest Hfuel Hin Hrs Hpre
      Hlast;
    (destruct fuel as [|fuel]; [simpl in Hfuel; lia|]);
    rewrite fetch_pages_eq, api_post_eq; cbv zeta.
  - apply Forall2_cons_inv_r in Hrs as (r & rs' & [Hst Hjs] & Hrs' & ->).
    apply Forall2_nil_inv_r in Hrs' as ->.
    cbn [fmap list_fmap app] in Hin. rewrite Hin.
    assert ((400 <=? status_code r) && (status_code r <? 600) = false) as ->
      by lia.
    rewrite Hjs, read_page_json, (not_declares_more_stop _ Hlast).
    eexists. split.
    { cbn [fmap list_fmap app concat]. by rewrite app_nil_r. }
    by repeat split.
  - cbn [app] in Hrs.
    apply Forall2_cons_inv_r in Hrs as (r & rs' & [Hst Hjs] & Hrs' & ->).
    apply Forall_cons in Hpre as [Hp Hpre].
    cbn [fmap list_fmap app] in Hin. rewrite Hin.
    assert ((400 <=? status_code r) && (status_code r <? 600) = false) as ->
      by lia.
    rewrite Hjs, read_page_json, (declares_more_continue _ Hp).
    edestruct (IH fuel token max_count (cursor_value p)
                 (all_items ++ videos p)%list
                 (set_inbox ((Reply <$> rs') ++ rest)%list
                    (log (list_request token max_count c0) w))
                 last rs' rest) as (w' & Hrun & Hi & Ht & Hr);
      [simpl in Hfuel; lia | reflexivity | done | done | done |].
    exists w'. unfold list_request, list_url in *. rewrite Hrun.
    split; [|split; [done|split; [|done]]].
    + cbn [fmap list_fmap app concat]. by rewrite <- app_assoc.
    + rewrite Ht. cbn [trace set_inbox log fmap list_fmap].
      by rewrite <- app_assoc.
Qed.

Lemma fetch_all_videos_eq (max_count : Z) (w : world) :
  fetch_all_videos max_count w =
  match get_valid_access_token w with
  | (inl e, w1) => (inl e, w1)
  | (inr token, w1) =>
      fetch_pages (S (length (inbox w1))) token max_count PNone [] w1
  end.
Proof.
  unfold fetch_all_videos, bind at 1.
  by destruct (get_valid_access_token w) as [[e|token] w1].
Qed.

(** C3. Given a valid token, when the provider serves pages [pre ++ [last]]
    where every page of [pre] declares [has_more] true with a non-empty cursor
    and [last] does not, [fetch_all_videos] makes exactly one request per
    page, each carrying the cursor of the page before it, stops after [last]
    without consuming any further reply, and returns the pages' videos
    concatenated in the order served. *)
Theorem listing_follows_pages (w w1 : world) (token : pyval) (max_count : Z)
    (pre : list page) (last : page) (rs : list response) (rest : list reply) :
  get_valid_access_token w = (inr token, w1) →
  inbox w1 = ((Reply <$> rs) ++ rest)%list →
  Forall2 serves rs (pre ++ [last])%list →
  Forall declares_more pre →
  ¬ declares_more last →
  ∃ w',
    fetch_all_videos max_count w
    = (inr (concat (videos <$> (pre ++ [last])%list)), w')
    ∧ inbox w' = rest
    ∧ trace w'
      = (trace w1
         ++ (list_request token max_count
               <$> (PNone :: (cursor_value <$> pre))))%list.
Proof.
  intros Htok Hin Hrs Hpre Hlast.
  rewrite fetch_all_videos_eq, Htok.
  destruct (fetch_pages_run pre (S (length (inbox w1))) token max_count PNone []
              w1 last rs rest) as (w' & Hrun & Hi & Ht & _);
    [|done..|].
  { rewrite Hin, length_app, length_fmap.
    apply Forall2_length in Hrs. rewrite Hrs, length_app. lia. }
  exists w'. by rewrite Hrun.
Qed.

Lemma fetch_pages_abort (pre : list page) :
  ∀ (fuel : nat) (token : pyval) (max_count : Z) (c0 : pyval)
    (all_items : list pyval) (w : world) (rs : list response) (bad : response)
    (rest : list reply),
  (length pre < fuel)%nat →
  inbox w = ((Reply <$> rs) ++ Reply bad :: rest)%list →
  Forall2 serves rs pre →
  Forall declares_more pre →
  400 ≤ status_code bad < 600 →
  ∃ w',
    fetch_pages fuel token max_count c0 all_items w
    = (inl (HTTPError (status_code bad)), w')
    ∧ inbox w' = rest
    ∧ tokens_row w' = tokens_row w.
Proof.
  induction pre as [|p pre IH];
    intros fuel token max_count c0 all_items w rs bad rest Hfuel Hin Hrs Hpre
      Hbad;
    (destruct fuel as [|fuel]; [simpl in Hfuel; lia|]);
    rewrite fetch_pages_eq, api_post_eq; cbv zeta.
  - apply Forall2_nil_inv_r in Hrs as ->.
    cbn [fmap list_fmap app] in Hin. rewrite Hin.
    assert ((400 <=? status_code bad) && (status_code bad <? 600) = true) as ->
      by lia.
    eexists. by repeat split.
  - apply Forall2_cons_inv_r in Hrs as (r & rs' & [Hst Hjs] & Hrs' & ->).
    apply Forall_cons in Hpre as [Hp Hpre].
    cbn [fmap list_fmap app] in Hin. rewrite Hin.
    assert ((400 <=? status_code r) && (status_code r <? 600) = false) as ->
      by lia.
    rewrite Hjs, read_page_json, (declares_more_continue _ Hp).
    edestruct (IH fuel token max_count (cursor_value p)
                 (all_items ++ videos p)%list
                 (set_inbox ((Reply <$> rs') ++ Reply bad :: rest)%list
                    (log (list_request token max_count c0) w))
                 rs' bad rest) as (w' & Hrun & Hi & Hr);
      [simpl in Hfuel; lia | reflexivity | done | done | done |].
    exists w'. unfold list_request, list_url in *. by rewrite Hrun.
Qed.

(** C8, amended. When, at any page of the listing, the provider answers with
    a status from 400 to 599, [fetch_all_videos] raises [HTTPError] with that
    status: the outcome is the exception, and the videos of the pages read so
    far are not returned. *)
Theorem listing_aborts_on_error_status (w w1 : world) (token : pyval)
    (max_count : Z) (pre : list page) (rs : list response) (bad : response)
    (rest : list reply) :
  get_valid_access_token w = (inr token, w1) →
  inbox w1 = ((Reply <$> rs) ++ Reply bad :: rest)%list →
  Forall2 serves rs pre →
  Forall declares_more pre →
  400 ≤ status_code bad < 600 →
  ∃ w',
    fetch_all_videos max_count w = (inl (HTTPError (status_code bad)), w')
    ∧ inbox w' = rest.
Proof.
  intros Htok Hin Hrs Hpre Hbad.
  rewrite fetch_all_videos_eq, Htok.
  destruct (fetch_pages_abort pre (S (length (inbox w1))) token max_count PNone []
              w1 rs bad rest) as (w' & Hrun & Hi & _);
    [|done..|].
  { rewrite Hin, length_app, length_fmap.
    apply Forall2_length in Hrs. rewrite Hrs. simpl. lia. }
  exists w'. by rewrite Hrun.
Qed.

(** ** Relay and run endpoint *)

Lemma call_n8n_eq (w : world) :
  call_n8n w =
  match fetch_all_videos 20 w with
  | (inl e, w1) => (inl e, w1)
  | (inr items, w1) =>
      match http (relay_request (env w1) items) w1 with
      | (inl e, w2) => (inl e, w2)
      | (inr resp, w2) =>
          (inr ({[ "n8n_status" := PInt (status_code resp);
                   "n8n_text" := PStr (str_prefix 500 (text resp));
                   "count" := PInt (Z.of_nat (length items)) ]}
                 : gmap string pyval), w2)
      end
  end.
Proof.
  unfold call_n8n, bind at 1.
  destruct (fetch_all_videos 20 w) as [[e|items] w1]; [reflexivity|].
  unfold bind at 1, getenv at 1, bind at 1. fold (relay_request (env w1) items).
  by destruct (http _ w1) as [[e|resp] w2].
Qed.

Lemma ok_body_eq (a b c : pyval) :
  ({[ "n8n_status" := a; "n8n_text" := b; "count" := c ]} : gmap string pyval)
  ∪ {[ "ok" := PBool true ]}
  = {[ "ok" := PBool true; "n8n_status" := a; "n8n_text" := b; "count" := c ]}.
Proof. vm_compute. reflexivity. Qed.

Lemma str_prefix_length_min (n : nat) (s : string) :
  String.length (str_prefix n s) = Nat.min n (String.length s).
Proof.
  unfold str_prefix. revert s.
  induction n as [|n IH]; intros [|c s]; simpl; try reflexivity.
  by rewrite IH.
Qed.

Lemma str_prefix_split (n : nat) (s : string) :
  ∃ tail, s = str_prefix n s +:+ tail.
Proof.
  unfold str_prefix. revert s.
  induction n as [|n IH]; intros [|c s]; simpl; try by eexists.
  destruct (IH s) as [tail Ht]. exists tail.
  change (String c s = String c (String.substring 0 n s +:+ tail)).
  by rewrite <- Ht.
Qed.

Section Run.
Variable str_exn : exn → string.

Lemma run_now_eq (w : world) :
  run_now str_exn w =
  match call_n8n w with
  | (inl e, w') =>
      (inr {[ "ok" := PBool false; "error" := PStr (str_exn e) ]}, w')
  | (inr result, w') => (inr (result ∪ {[ "ok" := PBool true ]}), w')
  end.
Proof.
  unfold run_now, try_except, bind.
  by destruct (call_n8n w) as [[e|res] w'].
Qed.

(** C9. The run endpoint never raises.  Whatever exception the pipeline
    raises, it answers [{ok: false, error: str(e)}]; when the listing succeeds
    and the webhook replies, it answers [{ok: true, n8n_status, n8n_text,
    count}] where [count] is the number of videos and [n8n_text] is the
    webhook's body cut to its first 500 characters: it begins the body, and
    its length is the smaller of 500 and the body's length, hence at most
    500. *)
Theorem run_never_raises (w : world) :
  (∃ body w', run_now str_exn w = (inr body, w'))
  ∧ (∀ e w', call_n8n w = (inl e, w') →
       run_now str_exn w
       = (inr {[ "ok" := PBool false; "error" := PStr (str_exn e) ]}, w'))
  ∧ (∀ items w1 resp rest,
       fetch_all_videos 20 w = (inr items, w1) →
       inbox w1 = Reply resp :: rest →
       ∃ w' shown,
         run_now str_exn w
         = (inr {[ "ok" := PBool true;
                   "n8n_status" := PInt (status_code resp);
                   "n8n_text" := PStr shown;
                   "count" := PInt (Z.of_nat (length items)) ]}, w')
         ∧ shown = str_prefix 500 (text resp)
         ∧ (String.length shown ≤ 500)%nat
         ∧ (∃ tail, text resp = shown +:+ tail)
         ∧ String.length shown = Nat.min 500 (String.length (text resp))).
Proof.
  rewrite run_now_eq. split; [|split].
  - destruct (call_n8n w) as [[e|res] w']; by eexists _, _.
  - by intros e w' ->.
  - intros items w1 resp rest Hf Hin. rewrite call_n8n_eq, Hf, http_eq, Hin.
    rewrite ok_body_eq.
    eexists _, _. split; [reflexivity|]. split; [reflexivity|].
    split; [apply str_prefix_length|].
    split; [apply str_prefix_split | apply str_prefix_length_min].
Qed.
End Run.

(** ** Where the stored expiry comes from *)

Lemma expiry_writes_app (l1 l2 : list event) :
  expiry_writes (l1 ++ l2) = (expiry_writes l1 ++ expiry_writes l2)%list.
Proof. apply omap_app. Qed.

Lemma new_events_app (w w' : world) (delta : list event) :
  trace w' = (trace w ++ delta)%list → new_events w w' = delta.
Proof. unfold new_events. intros ->. by rewrite drop_app_length. Qed.

Lemma quiet_appends {A} (m : M A) : quiet m → appends m.
Proof. intros H w. destruct (H w) as (d & Hd & _). by exists d. Qed.

Lemma expiry_of_quiet {A} (m : M A) (w : world) : quiet m → expiry_of m w = [].
Proof.
  intros H. destruct (H w) as (d & Hd & He).
  unfold expiry_of. by rewrite (new_events_app _ _ _ Hd).
Qed.

Lemma expiry_of_bind {A B} (m : M A) (k : A → M B) (w : world) :
  appends m → (∀ a, appends (k a)) →
  expiry_of (bind m k) w
  = (expiry_of m w
     ++ match (m w).1 with
        | inr a => expiry_of (k a) (m w).2
        | inl _ => []
        end)%list.
Proof.
  intros Hm Hk. unfold expiry_of, bind.
  destruct (Hm w) as (d1 & Hd1).
  destruct (m w) as [[e|a] w1]; cbn [fst snd] in *.
  - by rewrite app_nil_r.
  - destruct (Hk a w1) as (d2 & Hd2).
    rewrite (new_events_app _ _ _ Hd1), (new_events_app _ _ _ Hd2).
    rewrite <- expiry_writes_app. f_equal. apply new_events_app.
    by rewrite Hd2, Hd1, app_assoc.
Qed.

Lemma appends_bind {A B} (m : M A) (k : A → M B) :
  appends m → (∀ a, appends (k a)) → appends (bind m k).
Proof.
  intros Hm Hk w. unfold bind. destruct (Hm w) as (d1 & Hd1).
  destruct (m w) as [[e|a] w1]; cbn [fst snd] in *; [by exists d1|].
  destruct (Hk a w1) as (d2 & Hd2). exists (d1 ++ d2)%list.
  by rewrite Hd2, Hd1, app_assoc.
Qed.

Lemma quiet_bind {A B} (m : M A) (k : A → M B) :
  quiet m → (∀ a, quiet (k a)) → quiet (bind m k).
Proof.
  intros Hm Hk w. unfold bind. destruct (Hm w) as (d1 & Hd1 & He1).
  destruct (m w) as [[e|a] w1]; cbn [fst snd] in *; [by exists d1|].
  destruct (Hk a w1) as (d2 & Hd2 & He2). exists (d1 ++ d2)%list.
  by rewrite Hd2, Hd1, app_assoc, expiry_writes_app, He1, He2.
Qed.

Lemma quiet_try_except {A} (m : M A) (h : exn → M A) :
  quiet m → (∀ e, quiet (h e)) → quiet (try_except m h).
Proof.
  intros Hm Hh w. unfold try_except. destruct (Hm w) as (d1 & Hd1 & He1).
  destruct (m w) as [[e|a] w1]; cbn [fst snd] in *; [|by exists d1].
  destruct (Hh e w1) as (d2 & Hd2 & He2). exists (d1 ++ d2)%list.
  by rewrite Hd2, Hd1, app_assoc, expiry_writes_app, He1, He2.
Qed.

Lemma quiet_still {A} (m : M A) :
  (∀ w, trace (m w).2 = trace w) → quiet m.
Proof. intros H w. exists []. by rewrite H, app_nil_r. Qed.

Lemma quiet_ret {A} (a : A) : quiet (ret a).
Proof. by apply quiet_still. Qed.

Lemma quiet_raise {A} (e : exn) : quiet (@raise A e).
Proof. by apply quiet_still. Qed.

Lemma quiet_lift {A} (r : exn + A) : quiet (lift r).
Proof. by apply quiet_still. Qed.

Lemma quiet_getenv : quiet getenv.
Proof. by apply quiet_still. Qed.

Lemma quiet_rounds_left : quiet rounds_left.
Proof. by apply quiet_still. Qed.

Lemma quiet_time_time : quiet time_time.
Proof. by apply quiet_still. Qed.

Lemma quiet_utcnow_isoformat : quiet utcnow_isoformat.
Proof. by apply quiet_still. Qed.

Lemma quiet_resp_json (resp : response) : quiet (resp_json resp).
Proof. unfold resp_json. destruct (json resp); by apply quiet_still. Qed.

Lemma quiet_raise_for_status (resp : response) : quiet (raise_for_status resp).
Proof. unfold raise_for_status. case_match; by apply quiet_still. Qed.

Lemma quiet_http (ev : event) :
  (∀ p, ev ≠ DbUpsert p) → quiet (http ev).
Proof.
  intros Hev w. exists [ev]. rewrite http_eq.
  split; [by destruct (inbox w) as [|[r|] rest]|].
  destruct ev; try reflexivity. by destruct (Hev payload).
Qed.

Lemma quiet_db_select : quiet db_select.
Proof. intros w. by exists [DbSelect]. Qed.

Lemma quiet_get_tokens_row : quiet get_tokens_row.
Proof.
  apply quiet_bind; [apply quiet_db_select | intros; apply quiet_ret].
Qed.

Lemma upsert_payload_no_expiry (a r s o : pyval) (stamp : string) :
  upsert_payload a r s None o stamp !! "expires_at" = None.
Proof.
  destruct (upsert_payload a r s None o stamp !! "expires_at") as [v|] eqn:H;
    [|done].
  apply upsert_payload_lookup in H as [_ H].
  destruct H as [?|[?|[[? _]|[[? _]|[[? _]|[[_ [? ?]]|[? _]]]]]]]; done.
Qed.

Lemma quiet_upsert_without_lifetime (a r s o : pyval) :
  quiet (upsert_tokens a r s PNone o).
Proof.
  intros w. rewrite upsert_tokens_eq. cbn [is_not_None]. cbv zeta.
  eexists [_]. split; [reflexivity|].
  cbn. by rewrite upsert_payload_no_expiry.
Qed.

Create HintDb quiet.
#[local] Hint Resolve quiet_ret quiet_raise quiet_lift quiet_getenv
  quiet_rounds_left quiet_time_time quiet_utcnow_isoformat quiet_resp_json
  quiet_raise_for_status quiet_db_select quiet_get_tokens_row
  quiet_upsert_without_lifetime : quiet.

Ltac quiet_step :=
  match goal with
  | |- quiet (bind _ _) => apply quiet_bind; [|intros ?]
  | |- quiet (try_except _ _) => apply quiet_try_except; [|intros ?]
  | |- quiet (http _) => apply quiet_http; intros ?; discriminate
  | |- quiet (if ?b then _ else _) => destruct b
  | |- quiet (match ?x with _ => _ end) => destruct x
  | |- quiet _ => solve [auto with quiet]
  end.

Lemma quiet_api_post (path : string) (token body : pyval) :
  quiet (api_post path token body).
Proof. unfold api_post. cbv zeta. repeat quiet_step. Qed.

Lemma quiet_fetch_pages (fuel : nat) :
  ∀ token max_count c0 all_items,
    quiet (fetch_pages fuel token max_count c0 all_items).
Proof.
  induction fuel as [|fuel IH]; intros token max_count c0 all_items;
    cbn [fetch_pages]; [auto with quiet|].
  cbv zeta. apply quiet_bind; [apply quiet_api_post|]. intros data.
  repeat (apply quiet_bind; [auto with quiet|]; intros ?).
  destruct (_ || _); [auto with quiet | apply IH].
Qed.

Lemma read_grant_lifetime (data rt a r s : pyval) (n : Z) :
  read_grant data rt = inr (a, r, s, n) → granted_lifetime data = Some n.
Proof.
  unfold read_grant, granted_lifetime.
  destruct data as [| | | | |d]; try discriminate.
  cbn [py_getitem py_get].
  destruct (d !! "access_token"); [|discriminate].
  destruct (d !! "expires_in") as [x|] eqn:Hx.
  - rewrite (dict_get_Some _ _ _ _ Hx).
    destruct (py_int x); [discriminate|]. intros [=]. congruence.
  - rewrite (dict_get_None _ _ _ Hx). cbn [py_int]. intros [=]. congruence.
Qed.

Lemma from_grant_later (w w1 : world) (v : pyval) :
  inbox w1 = inbox w → clock w1 = clock w → (reads w ≤ reads w1)%nat →
  from_grant w1 v → from_grant w v.
Proof.
  intros Hi Hc Hr (resp & rest & data & n & k & H1 & H2 & H3 & H4 & H5 & H6).
  exists resp, rest, data, n, k. rewrite <- Hi, <- Hc.
  repeat split; try done. lia.
Qed.

Lemma appends_refresh_access_token (rt : pyval) :
  appends (refresh_access_token rt).
Proof.
  intros w. rewrite refresh_access_token_eq. cbv zeta.
  destruct (inbox w) as [|[resp|] rest]; [by eexists [_]| |by eexists [_]].
  destruct (400 <=? status_code resp); [by eexists [_]|].
  destruct (json resp) as [data|]; [|by eexists [_]].
  destruct (read_grant data rt) as [x|[[[a r] s] n]]; [by eexists [_]|].
  eexists [_; _]. cbn [snd]. rewrite trace_written.
  cbn [trace tick set_inbox log]. by rewrite <- app_assoc.
Qed.

Lemma refresh_expiry_from_grant (rt : pyval) :
  expiry_from_grant (refresh_access_token rt).
Proof.
  intros w v. unfold expiry_of. rewrite refresh_access_token_eq. cbv zeta.
  destruct (inbox w) as [|[resp|] rest] eqn:Hin;
    [rewrite (new_events_app _ _ [_]) by done; cbn; by intros ?%elem_of_nil| |
     rewrite (new_events_app _ _ [_]) by done; cbn; by intros ?%elem_of_nil].
  destruct (400 <=? status_code resp) eqn:Hst;
    [rewrite (new_events_app _ _ [_]) by done; cbn; by intros ?%elem_of_nil|].
  destruct (json resp) as [data|] eqn:Hjs;
    [|rewrite (new_events_app _ _ [_]) by done; cbn; by intros ?%elem_of_nil].
  destruct (read_grant data rt) as [x|[[[a r] s] n]] eqn:Hg;
    [rewrite (new_events_app _ _ [_]) by done; cbn; by intros ?%elem_of_nil|].
  cbn [snd].
  erewrite (new_events_app _ _ [_; _]);
    [|rewrite trace_written; cbn [trace tick set_inbox log];
      by rewrite <- app_assoc].
  cbn [expiry_writes omap list_omap].
  destruct (upsert_payload_value a r s
              (Some (epoch (clock w (reads w)) + n - 60)) PNone
              (isoformat (clock w (S (reads w))))) as (_ & _ & _ & _ & Hx & _).
  rewrite (Hx _ eq_refl). intros ->%list_elem_of_singleton.
  exists resp, rest, data, n, (reads w).
  repeat split; try done; [lia|]. by eapply read_grant_lifetime.
Qed.

Lemma idle_bind {A B} (m : M A) (k : A → M B) :
  idle m → (∀ a, idle (k a)) → idle (bind m k).
Proof.
  intros Hm Hk w. unfold bind. destruct (Hm w) as (H1 & H2 & H3).
  destruct (m w) as [[e|a] w1]; cbn [fst snd] in *; [done|].
  destruct (Hk a w1) as (H4 & H5 & H6).
  rewrite H4, H5, H1, H2. repeat split; try done. lia.
Qed.

Lemma idle_ret {A} (a : A) : idle (ret a).
Proof. by intros w. Qed.

Lemma idle_raise {A} (e : exn) : idle (@raise A e).
Proof. by intros w. Qed.

Lemma idle_lift {A} (r : exn + A) : idle (lift r).
Proof. by intros w. Qed.

Lemma idle_time_time : idle time_time.
Proof. intros w. cbn. repeat split; lia. Qed.

Lemma idle_get_tokens_row : idle get_tokens_row.
Proof. intros w. rewrite get_tokens_row_eq. by cbn. Qed.

Lemma sound_quiet {A} (m : M A) : quiet m → sound m.
Proof.
  intros H. split; [by apply quiet_appends|].
  intros w v. rewrite expiry_of_quiet by done. by intros ?%elem_of_nil.
Qed.

Lemma sound_bind_idle {A B} (m : M A) (k : A → M B) :
  quiet m → idle m → (∀ a, sound (k a)) → sound (bind m k).
Proof.
  intros Hq Hi Hk. split.
  - apply appends_bind; [by apply quiet_appends | intros a; apply Hk].
  - intros w v.
    rewrite expiry_of_bind, expiry_of_quiet;
      [|done | by apply quiet_appends | intros a; apply Hk].
    cbn [app]. destruct (Hi w) as (H1 & H2 & H3).
    destruct (m w) as [[e|a] w1]; cbn [fst snd] in *;
      [by intros ?%elem_of_nil|].
    intros Hv. apply (from_grant_later w w1); try done.
    by apply (proj2 (Hk a)).
Qed.

Lemma sound_bind_quiet {A B} (m : M A) (k : A → M B) :
  sound m → (∀ a, quiet (k a)) → sound (bind m k).
Proof.
  intros [Ha He] Hk. split.
  - apply appends_bind; [done | intros a; by apply quiet_appends].
  - intros w v.
    rewrite expiry_of_bind; [|done | intros a; by apply quiet_appends].
    assert (match (m w).1 with
            | inr a => expiry_of (k a) (m w).2
            | inl _ => []
            end = []) as ->.
    { destruct ((m w).1); [done|]. by apply expiry_of_quiet. }
    rewrite app_nil_r. apply He.
Qed.

Lemma sound_try_except {A} (m : M A) (h : exn → M A) :
  sound m → (∀ e, quiet (h e)) → sound (try_except m h).
Proof.
  intros [Ha He] Hh.
  assert (∀ w, ∃ d1 d2,
    trace (m w).2 = (trace w ++ d1)%list
    ∧ trace (try_except m h w).2 = (trace w ++ d1 ++ d2)%list
    ∧ expiry_writes d2 = []) as Hsplit.
  { intros w. unfold try_except. destruct (Ha w) as (d1 & Hd1).
    destruct (m w) as [[e|a] w1]; cbn [fst snd] in *.
    - destruct (Hh e w1) as (d2 & Hd2 & He2). exists d1, d2.
      by rewrite Hd2, Hd1, app_assoc.
    - exists d1, []. by rewrite app_nil_r. }
  split.
  - intros w. destruct (Hsplit w) as (d1 & d2 & _ & H & _). by eexists.
  - intros w v. destruct (Hsplit w) as (d1 & d2 & H1 & H2 & H3).
    unfold expiry_of. rewrite (new_events_app _ _ _ H2).
    rewrite expiry_writes_app, H3, app_nil_r. intros Hv. apply He.
    unfold expiry_of. by rewrite (new_events_app _ _ _ H1).
Qed.

Lemma sound_refresh_access_token (rt : pyval) :
  sound (refresh_access_token rt).
Proof.
  split; [apply appends_refresh_access_token | apply refresh_expiry_from_grant].
Qed.

Lemma sound_get_valid_access_token : sound get_valid_access_token.
Proof.
  unfold get_valid_access_token.
  apply sound_bind_idle;
    [apply quiet_get_tokens_row | apply idle_get_tokens_row |].
  intros [row|]; [|apply sound_quiet, quiet_raise].
  destruct (negb _); [apply sound_quiet, quiet_raise|].
  apply sound_bind_idle; [apply quiet_time_time | apply idle_time_time |].
  intros now. cbv zeta.
  apply sound_bind_idle.
  - destruct (truthy _); repeat quiet_step.
  - destruct (truthy _); [|apply idle_ret].
    apply idle_bind; [apply idle_lift | intros; apply idle_ret].
  - intros [|]; [apply sound_quiet, quiet_ret|].
    destruct (negb _); [apply sound_quiet, quiet_raise|].
    apply sound_refresh_access_token.
Qed.

Lemma sound_fetch_all_videos (max_count : Z) : sound (fetch_all_videos max_count).
Proof.
  unfold fetch_all_videos.
  apply sound_bind_quiet; [apply sound_get_valid_access_token|].
  intros token. apply quiet_bind; [apply quiet_rounds_left|].
  intros fuel. apply quiet_fetch_pages.
Qed.

Lemma sound_call_n8n : sound call_n8n.
Proof.
  unfold call_n8n.
  apply sound_bind_quiet; [apply sound_fetch_all_videos|].
  intros items. repeat quiet_step.
Qed.

Lemma sound_run_now (str_exn : exn → string) : sound (run_now str_exn).
Proof.
  unfold run_now. apply sound_try_except.
  - apply sound_bind_quiet; [apply sound_call_n8n | intros; apply quiet_ret].
  - intros e. apply quiet_ret.
Qed.

Lemma sound_force_refresh : sound force_refresh.
Proof.
  unfold force_refresh.
  apply sound_bind_idle;
    [apply quiet_get_tokens_row | apply idle_get_tokens_row |].
  intros row. cbv zeta.
  destruct (match row with Some _ => _ | None => _ end);
    [apply sound_quiet, quiet_raise|].
  apply sound_bind_idle; [apply quiet_lift | apply idle_lift |].
  intros rt. apply sound_bind_quiet; [apply sound_refresh_access_token|].
  intros new_access. repeat quiet_step.
Qed.

Lemma oauth_callback_eq (code state : pyval) (w : world) :
  oauth_callback code state w =
  let ev := code_request (env w) code in
  match inbox w with
  | [] => (inl RequestException, log ev w)
  | NoReply :: rest => (inl RequestException, set_inbox rest (log ev w))
  | Reply resp :: rest =>
      let w1 := set_inbox rest (log ev w) in
      if 400 <=? status_code resp then
        (inl (HTTPException (status_code resp)
                (PDict {[ "oauth_code_error" := error_body resp ]})), w1)
      else
        match json resp with
        | None => (inl JSONDecodeError, w1)
        | Some tok =>
            match read_grant tok PNone with
            | inl x => (inl x, w1)
            | inr (access_token, refresh_token, scope, n) =>
                let t := epoch (clock w (reads w)) in
                let stamp := isoformat (clock w (S (reads w))) in
                callback_tail access_token state
                  (written (upsert_payload access_token refresh_token scope
                              (Some (t + n - 60)) PNone stamp)
                     (tick (tick w1)))
            end
        end
  end.
Proof.
  unfold oauth_callback. unfold bind at 1, getenv at 1, bind at 1.
  rewrite http_eq. cbv zeta. fold (code_request (env w) code).
  destruct (inbox w) as [|[resp|] rest]; [reflexivity| |reflexivity].
  destruct (400 <=? status_code resp); [reflexivity|].
  unfold bind at 1, resp_json. destruct (json resp) as [tok|]; [|reflexivity].
  unfold ret at 1, read_grant.
  unfold bind at 1, lift at 1.
  destruct (py_getitem tok "access_token") as [x|access_token]; [reflexivity|].
  unfold bind at 1, lift at 1.
  destruct (py_get tok "refresh_token" PNone) as [x|new_refresh]; [reflexivity|].
  unfold bind at 1, lift at 1.
  destruct (py_get tok "scope" PNone) as [x|scope]; [reflexivity|].
  unfold bind at 1, lift at 1.
  destruct (py_get tok "expires_in" (PInt 3600)) as [x|lifetime]; [reflexivity|].
  unfold bind at 1, lift at 1.
  destruct (py_int lifetime) as [x|n]; [reflexivity|].
  unfold bind at 1. rewrite upsert_tokens_eq. reflexivity.
Qed.

Lemma quiet_callback_tail (access_token state : pyval) :
  quiet (callback_tail access_token state).
Proof. unfold callback_tail. repeat quiet_step. Qed.

Lemma sound_oauth_callback (code state : pyval) :
  sound (oauth_callback code state).
Proof.
  assert (∀ w, (∃ d, trace (oauth_callback code state w).2 = (trace w ++ d)%list
                     ∧ expiry_writes d = [])
               ∨ ∃ resp rest tok a r s n d,
                   inbox w = Reply resp :: rest
                   ∧ (400 <=? status_code resp) = false
                   ∧ json resp = Some tok
                   ∧ read_grant tok PNone = inr (a, r, s, n)
                   ∧ trace (oauth_callback code state w).2 = (trace w ++ d)%list
                   ∧ expiry_writes d
                     = [PInt (epoch (clock w (reads w)) + n - 60)]) as Hcases.
  { intros w. rewrite oauth_callback_eq. cbv zeta.
    destruct (inbox w) as [|[resp|] rest] eqn:Hin;
      [left; by eexists [_]| |left; by eexists [_]].
    destruct (400 <=? status_code resp) eqn:Hst; [left; by eexists [_]|].
    destruct (json resp) as [tok|] eqn:Hjs; [|left; by eexists [_]].
    destruct (read_grant tok PNone) as [x|[[[a r] s] n]] eqn:Hg;
      [left; by eexists [_]|].
    right. exists resp, rest, tok, a, r, s, n.
    match goal with |- context [callback_tail a state ?w0] =>
      destruct (quiet_callback_tail a state w0) as (d & Hd & He) end.
    eexists (_ :: _ :: d). repeat (split; [done|]).
    rewrite Hd, trace_written. cbn [trace tick set_inbox log].
    rewrite <- !app_assoc. split; [reflexivity|].
    cbn [expiry_writes omap list_omap app].
    destruct (upsert_payload_value a r s
                (Some (epoch (clock w (reads w)) + n - 60)) PNone
                (isoformat (clock w (S (reads w))))) as (_ & _ & _ & _ & Hx & _).
    rewrite (Hx _ eq_refl). unfold expiry_writes in He. by rewrite He. }
  split.
  - intros w. destruct (Hcases w) as [(d & Hd & _) | H]; [by exists d|].
    destruct H as (? & ? & ? & ? & ? & ? & ? & d & _ & _ & _ & _ & Hd & _).
    by exists d.
  - intros w v. unfold expiry_of.
    destruct (Hcases w) as [(d & Hd & He) | H].
    + rewrite (new_events_app _ _ _ Hd), He. by intros ?%elem_of_nil.
    + destruct H as (resp & rest & tok & a & r & s & n & d
                     & Hin & Hst & Hjs & Hg & Hd & He).
      rewrite (new_events_app _ _ _ Hd), He.
      intros ->%list_elem_of_singleton.
      exists resp, rest, tok, n, (reads w).
      repeat split; try done; [lia|]. by eapply read_grant_lifetime.
Qed.

Section Expiry.
Variable str_exn : exn → string.

(** C6, amended. Every value written to [expires_at], by the refresh, by
    the OAuth callback, by the forced refresh or by the run endpoint, is a
    reading of the clock plus a lifetime minus the 60 second margin, where the
    lifetime is the [expires_in] of the token response just received from the
    provider when that response declares one, and 3600 when it declares
    none. *)
Theorem expiry_comes_from_token_response (rt code state : pyval) :
  expiry_from_grant (refresh_access_token rt)
  ∧ expiry_from_grant (oauth_callback code state)
  ∧ expiry_from_grant force_refresh
  ∧ expiry_from_grant (run_now str_exn).
Proof.
  split; [apply sound_refresh_access_token|].
  split; [apply sound_oauth_callback|].
  split; [apply sound_force_refresh | apply sound_run_now].
Qed.
End Expiry.

(** ** The statements on the sample worlds *)

Lemma fresh_token_is_returned_witness :
  ∃ w', get_valid_access_token (world_of (Some fresh_row) [])
        = (inr (PStr "A"), w')
        ∧ trace w' = [DbSelect]
        ∧ inbox w' = []
        ∧ tokens_row w' = Some fresh_row.
Proof.
  apply (fresh_token_is_returned (world_of (Some fresh_row) []) fresh_row
           "A" 4600);
    [reflexivity | reflexivity | discriminate | reflexivity
    | vm_compute; reflexivity].
Defined.

Lemma expired_token_is_refreshed_once_witness :
  ∃ w' payload,
    get_valid_access_token
      (world_of (Some stale_row) [Reply (answer 200 (PDict grant_B))])
    = (inr (PStr "B"), w')
    ∧ trace w'
      = [DbSelect; refresh_request sample_env (PStr "R"); DbUpsert payload]
    ∧ inbox w' = []
    ∧ column w' "access_token" = Some (PStr "B")
    ∧ column w' "expires_at" = Some (PInt (1001 + 3600 - 60))
    ∧ column w' "refresh_token" = Some (PStr "R").
Proof.
  assert (990 ≤ 1000) as Hle by lia.
  assert (200 ≤ 200 < 300) as Hst by lia.
  assert ("R" ≠ "") as Hne by discriminate.
  destruct (expired_token_is_refreshed_once
              (world_of (Some stale_row) [Reply (answer 200 (PDict grant_B))])
              stale_row "R" "B" 990 3600 (answer 200 (PDict grant_B)) grant_B
              [] eq_refl eq_refl Hne eq_refl Hle eq_refl Hst eq_refl eq_refl
              eq_refl)
    as (w' & payload & H1 & H2 & H3 & H4 & H5 & H6).
  exists w', payload.
  split; [exact H1|]. split; [exact H2|]. split; [exact H3|].
  split; [exact H4|]. split; [exact H5|].
  apply H6. left. reflexivity.
Defined.

Lemma listing_follows_pages_witness :
  ∃ w',
    fetch_all_videos 20 two_page_world
    = (inr [PStr "v1"; PStr "v2"; PStr "v3"], w')
    ∧ inbox w' = [Reply (Response 200 long_text None)]
    ∧ trace w'
      = [DbSelect; list_request (PStr "A") 20 PNone;
         list_request (PStr "A") 20 (PStr "c1")].
Proof.
  apply (listing_follows_pages two_page_world
           (tick (log DbSelect two_page_world)) (PStr "A") 20
           [page_one] page_two
           [answer 200 (page_json page_one); answer 200 (page_json page_two)]
           [Reply (Response 200 long_text None)]).
  - vm_compute; reflexivity.
  - reflexivity.
  - repeat constructor; discriminate.
  - repeat constructor. by exists "c1".
  - intros [H _]. discriminate H.
Defined.

Lemma no_usable_token_is_configuration_error_witness :
  ∃ msg w',
    get_valid_access_token (world_of None []) = (inl (RuntimeError msg), w')
    ∧ trace w' = [DbSelect]
    ∧ inbox w' = []
    ∧ tokens_row w' = None.
Proof.
  apply (no_usable_token_is_configuration_error (world_of None [])).
  left. reflexivity.
Defined.

Lemma upsert_changes_only_named_columns_witness :
  column (upsert_tokens PNone PNone PNone PNone (PStr "open-1")
            (world_of (Some fresh_row) [])).2 "access_token"
  = Some (PStr "A").
Proof.
  exact (proj2 (proj2 (proj2 (proj2
           (upsert_changes_only_named_columns PNone PNone PNone PNone
              (PStr "open-1") (world_of (Some fresh_row) [])))))
           eq_refl).
Defined.

Lemma expiry_comes_from_token_response_witness :
  from_grant (world_of (Some stale_row) [Reply (answer 200 (PDict grant_B))])
    (PInt (1000 + 3600 - 60)).
Proof.
  apply (proj1 (expiry_comes_from_token_response (λ _, "error") (PStr "R")
                  PNone PNone)).
  vm_compute. left.
Defined.

Lemma refresh_error_status_is_raised_witness :
  ∃ w',
    refresh_access_token (PStr "R")
      (world_of (Some stale_row)
         [Reply (Response 401 "denied" None)])
    = (inl (HTTPException 401
              (PDict {[ "oauth_refresh_error"
                        := PDict {[ "text" := PStr "denied" ]} ]})), w')
    ∧ trace w' = [refresh_request sample_env (PStr "R")]
    ∧ inbox w' = [].
Proof.
  apply (refresh_error_status_is_raised (PStr "R")
           (world_of (Some stale_row) [Reply (Response 401 "denied" None)])
           (Response 401 "denied" None) []);
    [reflexivity | discriminate].
Defined.

Lemma listing_aborts_on_error_status_witness :
  ∃ w',
    fetch_all_videos 20
      (world_of (Some fresh_row)
         [Reply (answer 200 (page_json page_one));
          Reply (Response 500 "down" None)])
    = (inl (HTTPError 500), w')
    ∧ inbox w' = [].
Proof.
  apply (listing_aborts_on_error_status
           (world_of (Some fresh_row)
              [Reply (answer 200 (page_json page_one));
               Reply (Response 500 "down" None)])
           (tick (log DbSelect
              (world_of (Some fresh_row)
                 [Reply (answer 200 (page_json page_one));
                  Reply (Response 500 "down" None)])))
           (PStr "A") 20 [page_one] [answer 200 (page_json page_one)]
           (Response 500 "down" None) []).
  - vm_compute; reflexivity.
  - reflexivity.
  - repeat constructor; discriminate.
  - repeat constructor. by exists "c1".
  - simpl; lia.
Defined.

Lemma run_never_raises_witness :
  ∃ w',
    run_now (λ _, "error") two_page_world
    = (inr {[ "ok" := PBool true; "n8n_status" := PInt 200;
              "n8n_text" := PStr (String.concat "" (replicate 50 "0123456789"));
              "count" := PInt 3 ]}, w')
    ∧ String.length (String.concat "" (replicate 50 "0123456789")) = 500%nat
    ∧ String.length long_text = 600%nat.
Proof.
  assert (fetch_all_videos 20 two_page_world
          = (inr [PStr "v1"; PStr "v2"; PStr "v3"],
             (fetch_all_videos 20 two_page_world).2)) as Hf
    by (vm_compute; reflexivity).
  assert (inbox (fetch_all_videos 20 two_page_world).2
          = [Reply (Response 200 long_text None)]) as Hin
    by (vm_compute; reflexivity).
  destruct (proj2 (proj2 (run_never_raises (λ _, "error") two_page_world))
              [PStr "v1"; PStr "v2"; PStr "v3"]
              (fetch_all_videos 20 two_page_world).2
              (Response 200 long_text None) [] Hf Hin)
    as (w' & shown & Hrun & -> & _).
  exists w'. split; [exact Hrun|]. split; vm_compute; reflexivity.
Defined.

Lemma failed_refresh_leaves_row_witness :
  tokens_row
    (refresh_access_token (PStr "R")
       (world_of (Some stale_row) [Reply (Response 401 "denied" None)])).2
  = Some stale_row.
Proof.
  destruct (proj1 (failed_refresh_leaves_row (PStr "R")
              (world_of (Some stale_row) [Reply (Response 401 "denied" None)]))
              (Response 401 "denied" None) [] eq_refl) as [e He];
    [discriminate|].
  exact (proj1 (proj2 (failed_refresh_leaves_row (PStr "R")
           (world_of (Some stale_row) [Reply (Response 401 "denied" None)]))
           e He)).
Defined.

(** ** Where the specification and the program part *)

(** C6, as stated, fails: the provider answers the refresh with
    [{access_token: "B"}], declaring no [expires_in], and the program still
    writes an expiry, [1000 + 3600 - 60], from its own default of 3600. *)
Lemma expiry_is_guessed_without_expires_in :
  json (answer 200 (PDict grant_without_lifetime))
  = Some (PDict grant_without_lifetime)
  ∧ grant_without_lifetime !! "expires_in" = None
  ∧ expiry_of (refresh_access_token (PStr "R"))
      (world_of (Some stale_row)
         [Reply (answer 200 (PDict grant_without_lifetime))])
    = [PInt 4540].
Proof. repeat split; vm_compute; reflexivity. Qed.

(** C7, as stated, fails: status 300 is not a 2xx status, yet the refresh
    does not raise; it reads the body, stores the token and returns it. *)
Lemma refresh_accepts_status_300 :
  ¬ (200 ≤ status_code (answer 300 (PDict grant_B)) < 300)
  ∧ (refresh_access_token (PStr "R")
       (world_of (Some stale_row) [Reply (answer 300 (PDict grant_B))])).1
    = inr (PStr "B")
  ∧ column
      (refresh_access_token (PStr "R")
         (world_of (Some stale_row) [Reply (answer 300 (PDict grant_B))])).2
      "access_token"
    = Some (PStr "B").
Proof.
  split; [|split; vm_compute; reflexivity].
  intros [_ H]. vm_compute in H. discriminate H.
Qed.

(** C8, as stated, fails: a page answered with status 300 is not a 2xx
    response, yet the listing does not abort; it returns the page's videos. *)
Lemma listing_accepts_status_300 :
  ¬ (200 ≤ status_code (answer 300 (page_json page_two)) < 300)
  ∧ (fetch_all_videos 20
       (world_of (Some fresh_row)
          [Reply (answer 300 (page_json page_two))])).1
    = inr [PStr "v3"].
Proof.
  split; [|vm_compute; reflexivity].
  intros [_ H]. vm_compute in H. discriminate H.
Qed.

(** * Further properties of the program *)

Lemma py_or_falsy (x y : pyval) : truthy x = false → py_or x y = y.
Proof. unfold py_or. by intros ->. Qed.

Lemma tokens_row_written (p : gmap string pyval) (w : world) :
  tokens_row (written p w) = Some (p ∪ default ∅ (tokens_row w)).
Proof. reflexivity. Qed.

Lemma dict_get_union_l (p q : gmap string pyval) (k : string) (v dflt : pyval) :
  p !! k = Some v → dict_get (p ∪ q) k dflt = v.
Proof.
  intros H. apply dict_get_Some. by apply lookup_union_Some_l.
Qed.

Lemma str_prefix_short (n : nat) (s : string) :
  (String.length s ≤ n)%nat → str_prefix n s = s.
Proof.
  unfold str_prefix. revert s.
  induction n as [|n IH]; intros [|c s]; simpl; try reflexivity; try lia.
  intros H. f_equal. apply IH. lia.
Qed.

(** X1. What [upsert_tokens] stores, [get_tokens_row] reads back: after a
    well-typed upsert the read finds a row, with provider ['tiktok'], every
    given value under its column and the expiry computed from the lifetime;
    the read itself leaves the row as it is. *)
Theorem upsert_then_read (a r s e o : pyval) (w : world) :
  e = PNone ∨ (∃ n, e = PInt n) →
  let w1 := (upsert_tokens a r s e o w).2 in
  ∃ row,
    get_tokens_row w1 = (inr (Some row), log DbSelect w1)
    ∧ row !! "provider" = Some (PStr "tiktok")
    ∧ (a ≠ PNone → row !! "access_token" = Some a)
    ∧ (r ≠ PNone → row !! "refresh_token" = Some r)
    ∧ (s ≠ PNone → row !! "scope" = Some s)
    ∧ (∀ n, e = PInt n →
         row !! "expires_at" = Some (PInt (epoch (clock w (reads w)) + n - 60)))
    ∧ (o ≠ PNone → row !! "account_open_id" = Some o)
    ∧ tokens_row (log DbSelect w1) = tokens_row w1.
Proof.
  intros He. cbv zeta. rewrite upsert_tokens_eq.
  assert (∀ ea stamp w0,
    (∀ n, e = PInt n → ea = Some (epoch (clock w (reads w)) + n - 60)) →
    let w1 := written (upsert_payload a r s ea o stamp) w0 in
    ∃ row,
      get_tokens_row w1 = (inr (Some row), log DbSelect w1)
      ∧ row !! "provider" = Some (PStr "tiktok")
      ∧ (a ≠ PNone → row !! "access_token" = Some a)
      ∧ (r ≠ PNone → row !! "refresh_token" = Some r)
      ∧ (s ≠ PNone → row !! "scope" = Some s)
      ∧ (∀ n, e = PInt n →
           row !! "expires_at"
           = Some (PInt (epoch (clock w (reads w)) + n - 60)))
      ∧ (o ≠ PNone → row !! "account_open_id" = Some o)
      ∧ tokens_row (log DbSelect w1) = tokens_row w1) as Hgen.
  { intros ea stamp w0 Hea. cbv zeta.
    rewrite get_tokens_row_eq, tokens_row_written. cbn [fmap option_fmap option_map].
    eexists. split; [reflexivity|].
    destruct (upsert_payload_value a r s ea o stamp)
      as (_ & Ha & Hr & Hs & Hx & Ho).
    assert (upsert_payload a r s ea o stamp !! "provider"
            = Some (PStr "tiktok")) as Hp.
    { unfold upsert_payload. cbv zeta.
      rewrite lookup_insert_ne, put_if_given_lookup_ne by done.
      destruct ea; [rewrite lookup_insert_ne by done|];
        rewrite !put_if_given_lookup_ne by done; apply lookup_singleton_eq. }
    rewrite !select_columns_lookup by (unfold TOKEN_COLUMNS; set_solver).
    split; [by rewrite (dict_get_union_l _ _ _ _ _ Hp)|].
    split; [intros H; by rewrite (dict_get_union_l _ _ _ _ _ (Ha H))|].
    split; [intros H; by rewrite (dict_get_union_l _ _ _ _ _ (Hr H))|].
    split; [intros H; by rewrite (dict_get_union_l _ _ _ _ _ (Hs H))|].
    split; [|split; [|reflexivity]].
    - intros n Hn.
      by rewrite (dict_get_union_l _ _ _ _ _ (Hx _ (Hea n Hn))).
    - intros H. by rewrite (dict_get_union_l _ _ _ _ _ (Ho H)). }
  destruct He as [-> | [n ->]]; cbn [is_not_None py_int]; cbv zeta; cbn [snd].
  - apply Hgen. intros n [=].
  - apply Hgen. by intros n' [= <-].
Qed.

Lemma refresh_access_token_granted (rt : pyval) (w : world) (resp : response)
    (rest : list reply) (d : gmap string pyval) (a : pyval) (n : Z) :
  inbox w = Reply resp :: rest →
  status_code resp < 400 →
  json resp = Some (PDict d) →
  d !! "access_token" = Some a →
  granted_lifetime (PDict d) = Some n →
  refresh_access_token rt w
  = (inr a,
     written (upsert_payload a (dict_get d "refresh_token" rt)
                (dict_get d "scope" PNone)
                (Some (epoch (clock w (reads w)) + n - 60)) PNone
                (isoformat (clock w (S (reads w)))))
       (tick (tick (set_inbox rest (log (refresh_request (env w) rt) w))))).
Proof.
  intros Hin Hst Hjs Ha Hn.
  rewrite refresh_access_token_eq, Hin. cbv zeta.
  assert ((400 <=? status_code resp) = false) as -> by lia.
  rewrite Hjs. unfold read_grant, py_getitem, py_get. rewrite Ha.
  unfold granted_lifetime in Hn.
  destruct (d !! "expires_in") as [x|] eqn:Hx.
  - rewrite (dict_get_Some _ _ _ _ Hx).
    destruct (py_int x) as [|n']; [discriminate|]. by injection Hn as ->.
  - rewrite (dict_get_None _ _ _ Hx). cbn [py_int]. by injection Hn as <-.
Qed.

(** X2. A token that [refresh_access_token] has just stored is valid for the
    next call: as long as the clock's next reading is before the stored
    expiry, [get_valid_access_token] returns the new token with no further
    request to the provider. *)
Theorem refreshed_token_is_then_valid (rt : pyval) (w : world)
    (resp : response) (rest : list reply) (d : gmap string pyval)
    (B : string) (n : Z) :
  inbox w = Reply resp :: rest →
  status_code resp < 400 →
  json resp = Some (PDict d) →
  d !! "access_token" = Some (PStr B) → B ≠ "" →
  d !! "expires_in" = Some (PInt n) →
  epoch (clock w (S (S (reads w)))) < epoch (clock w (reads w)) + n - 60 →
  let w1 := (refresh_access_token rt w).2 in
  ∃ w2,
    get_valid_access_token w1 = (inr (PStr B), w2)
    ∧ trace w2 = (trace w1 ++ [DbSelect])%list
    ∧ inbox w2 = rest
    ∧ tokens_row w2 = tokens_row w1.
Proof.
  intros Hin Hst Hjs HB HBne Hn Hlt. cbv zeta.
  rewrite (refresh_access_token_granted rt w resp rest d (PStr B) n)
    by (try done; unfold granted_lifetime; by rewrite Hn).
  cbn [snd]. rewrite get_valid_access_token_eq, tokens_row_written. cbv zeta.
  destruct (upsert_payload_value (PStr B) (dict_get d "refresh_token" rt)
              (dict_get d "scope" PNone)
              (Some (epoch (clock w (reads w)) + n - 60)) PNone
              (isoformat (clock w (S (reads w)))))
    as (_ & Ha & _ & _ & Hx & _).
  rewrite (dict_get_union_l _ _ _ _ _ (Ha ltac:(done))).
  rewrite (dict_get_union_l _ _ _ _ _ (Hx _ eq_refl)).
  rewrite (truthy_nonempty_str B HBne), py_or_int_zero. cbn [py_int].
  cbn [clock reads written set_row log tick set_inbox].
  apply Z.ltb_lt in Hlt. rewrite Hlt.
  eexists. split; [reflexivity|]. by repeat split.
Qed.

(** X3. What the refresh stores as refresh token and scope.  A refresh token
    that the response carries replaces the stored one; a response whose
    [refresh_token] is null leaves the stored one untouched; a response
    without the key stores the token the refresh was called with.  A scope
    that the response carries is stored, and without one the stored scope
    stays. *)
Theorem refresh_stores_rotated_token (rt : pyval) (w : world)
    (resp : response) (rest : list reply) (d : gmap string pyval)
    (a : pyval) (n : Z) :
  inbox w = Reply resp :: rest →
  status_code resp < 400 →
  json resp = Some (PDict d) →
  d !! "access_token" = Some a →
  granted_lifetime (PDict d) = Some n →
  let w1 := (refresh_access_token rt w).2 in
  (∀ v, d !! "refresh_token" = Some v → v ≠ PNone →
        column w1 "refresh_token" = Some v)
  ∧ (d !! "refresh_token" = Some PNone →
        column w1 "refresh_token" = column w "refresh_token")
  ∧ (d !! "refresh_token" = None → rt ≠ PNone →
        column w1 "refresh_token" = Some rt)
  ∧ (∀ v, d !! "scope" = Some v → v ≠ PNone → column w1 "scope" = Some v)
  ∧ (d !! "scope" = None → column w1 "scope" = column w "scope").
Proof.
  intros Hin Hst Hjs Ha Hn. cbv zeta.
  rewrite (refresh_access_token_granted rt w resp rest d a n) by done.
  cbn [snd]. rewrite !column_written.
  set (p := upsert_payload _ _ _ _ _ _).
  assert (∀ k, p !! k = None →
               match p !! k with Some v => Some v | None =>
                 column (tick (tick (set_inbox rest
                   (log (refresh_request (env w) rt) w)))) k end
               = column w k) as Hkeep by (by intros k ->).
  destruct (upsert_payload_value a (dict_get d "refresh_token" rt)
              (dict_get d "scope" PNone)
              (Some (epoch (clock w (reads w)) + n - 60)) PNone
              (isoformat (clock w (S (reads w)))))
    as (_ & _ & Hr & Hs & _ & _). fold p in Hr, Hs.
  assert (∀ k v, p !! k = Some v →
            v ≠ PNone
            ∧ (k = "provider" ∨ k = "updated_at"
               ∨ (k = "access_token" ∧ a ≠ PNone)
               ∨ (k = "refresh_token" ∧ dict_get d "refresh_token" rt ≠ PNone)
               ∨ (k = "scope" ∧ dict_get d "scope" PNone ≠ PNone)
               ∨ (k = "expires_at"
                  ∧ is_Some (Some (epoch (clock w (reads w)) + n - 60)))
               ∨ (k = "account_open_id" ∧ PNone ≠ PNone))) as Hlook.
  { intros k v. apply upsert_payload_lookup. }
  split; [|split; [|split; [|split]]].
  - intros v Hv Hne. rewrite (dict_get_Some _ _ _ _ Hv) in Hr. by rewrite Hr.
  - intros Hv. apply Hkeep.
    destruct (p !! "refresh_token") as [x|] eqn:Hp; [|done].
    apply Hlook in Hp as [_ Hp]. rewrite (dict_get_Some _ _ _ _ Hv) in Hp.
    naive_solver.
  - intros Hv Hne. rewrite (dict_get_None _ _ _ Hv) in Hr. by rewrite Hr.
  - intros v Hv Hne. rewrite (dict_get_Some _ _ _ _ Hv) in Hs. by rewrite Hs.
  - intros Hv. apply Hkeep.
    destruct (p !! "scope") as [x|] eqn:Hp; [|done].
    apply Hlook in Hp as [_ Hp]. rewrite (dict_get_None _ _ _ Hv) in Hp.
    naive_solver.
Qed.

(** X4. The ways a refresh fails before anything is stored: without a reply
    it raises [RequestException]; with a body that is not JSON,
    [JSONDecodeError]; with a JSON object that lacks [access_token],
    [KeyError]; with JSON that is not an object, [TypeError].  In each case
    one request was made and the row is the one it was. *)
Theorem refresh_fails_before_storing (rt : pyval) (w : world) :
  let out := refresh_access_token rt w in
  (inbox w = [] ∨ (∃ rest, inbox w = NoReply :: rest) →
     out.1 = inl RequestException)
  ∧ (∀ resp rest, inbox w = Reply resp :: rest → status_code resp < 400 →
       (json resp = None → out.1 = inl JSONDecodeError)
       ∧ (∀ d, json resp = Some (PDict d) → d !! "access_token" = None →
            out.1 = inl (KeyError "access_token"))
       ∧ (∀ v, json resp = Some v → (∀ d, v ≠ PDict d) →
            out.1 = inl TypeError))
  ∧ (∀ e, out.1 = inl e →
       tokens_row out.2 = tokens_row w
       ∧ trace out.2 = (trace w ++ [refresh_request (env w) rt])%list).
Proof.
  cbv zeta. rewrite refresh_access_token_eq. cbv zeta.
  split; [|split].
  - intros [-> | [rest ->]]; reflexivity.
  - intros resp rest -> Hst.
    assert ((400 <=? status_code resp) = false) as -> by lia.
    split; [by intros ->|]. split.
    + intros d -> Hd. unfold read_grant, py_getitem. by rewrite Hd.
    + intros v -> Hv. unfold read_grant, py_getitem.
      destruct v; try reflexivity. by destruct (Hv d).
  - intros e.
    destruct (inbox w) as [|[resp|] rest]; [done| |done].
    destruct (400 <=? status_code resp); [done|].
    destruct (json resp) as [data|]; [|done].
    destruct (read_grant data rt) as [x|[[[a r] s] n]]; [done|].
    discriminate.
Qed.

(** X5. A stored access token is only used with an expiry: when the access
    token is missing or empty, or when [expires_at] is missing, null or zero
    (and the clock is not before the epoch), [get_valid_access_token] goes to
    the refresh with the stored refresh token. *)
Theorem token_without_expiry_is_refreshed (w : world)
    (row : gmap string pyval) :
  tokens_row w = Some row →
  truthy (dict_get row "refresh_token" PNone) = true →
  truthy (dict_get row "access_token" PNone) = false
  ∨ (truthy (dict_get row "expires_at" PNone) = false
     ∧ 0 ≤ epoch (clock w (reads w))) →
  get_valid_access_token w
  = refresh_access_token (dict_get row "refresh_token" PNone)
      (tick (log DbSelect w)).
Proof.
  intros Hrow Hrt Hcase.
  rewrite get_valid_access_token_eq, Hrow. cbv zeta.
  unfold refresh_or_fail. rewrite Hrt.
  destruct Hcase as [-> | [He Hnow]]; [reflexivity|].
  destruct (truthy (dict_get row "access_token" PNone)); [|reflexivity].
  rewrite (py_or_falsy _ _ He). cbn [py_int].
  by assert ((epoch (clock w (reads w)) <? 0) = false) as -> by lia.
Qed.

Lemma fetch_pages_only_lists (fuel : nat) :
  ∀ (token : pyval) (max_count : Z) (c0 : pyval) (all_items : list pyval)
    (w : world),
  ∃ cursors,
    trace (fetch_pages fuel token max_count c0 all_items w).2
    = (trace w ++ (list_request token max_count <$> cursors))%list
    ∧ (fuel ≠ 0%nat → ∃ more, cursors = c0 :: more)
    ∧ tokens_row (fetch_pages fuel token max_count c0 all_items w).2
      = tokens_row w
    ∧ reads (fetch_pages fuel token max_count c0 all_items w).2 = reads w.
Proof.
  induction fuel as [|fuel IH]; intros token max_count c0 all_items w.
  { exists []. cbn. by rewrite app_nil_r. }
  rewrite fetch_pages_eq, api_post_eq. cbv zeta.
  fold list_url. fold (list_request token max_count c0).
  assert (∀ (r : exn + list pyval) w1,
    trace w1 = (trace w ++ [list_request token max_count c0])%list →
    tokens_row w1 = tokens_row w → reads w1 = reads w →
    ∃ cursors,
      trace (r, w1).2
      = (trace w ++ (list_request token max_count <$> cursors))%list
      ∧ (S fuel ≠ 0%nat → ∃ more, cursors = c0 :: more)
      ∧ tokens_row (r, w1).2 = tokens_row w
      ∧ reads (r, w1).2 = reads w) as Hone.
  { intros r w1 Ht Hr Hc. exists [c0]. repeat split; try done. by exists []. }
  destruct (inbox w) as [|[resp|] rest]; [by apply Hone| |by apply Hone].
  destruct ((400 <=? status_code resp) && (status_code resp <? 600));
    [by apply Hone|].
  destruct (json resp) as [data|]; [|by apply Hone].
  destruct (read_page data) as [x|[[items has_more] next]]; [by apply Hone|].
  destruct (negb (truthy has_more) || negb (truthy next)); [by apply Hone|].
  destruct (IH token max_count next (all_items ++ items)%list
              (set_inbox rest (log (list_request token max_count c0) w)))
    as (cursors & Ht & _ & Hr & Hc).
  exists (c0 :: cursors). rewrite Ht, Hr, Hc.
  cbn [trace set_inbox log fmap list_fmap]. rewrite <- app_assoc.
  repeat split; try done. by exists cursors.
Qed.

(** X6. Whatever the provider answers, once the token is obtained the
    listing does nothing but ask for pages: every call it makes is a listing
    request carrying that same token and page size, the first one without a
    cursor; it never reads the table or the clock again (the token is not
    validated a second time) and never writes the row. *)
Theorem listing_only_requests_pages (max_count : Z) (w w1 : world)
    (token : pyval) :
  get_valid_access_token w = (inr token, w1) →
  ∃ more,
    trace (fetch_all_videos max_count w).2
    = (trace w1 ++ (list_request token max_count <$> (PNone :: more)))%list
    ∧ tokens_row (fetch_all_videos max_count w).2 = tokens_row w1
    ∧ reads (fetch_all_videos max_count w).2 = reads w1.
Proof.
  intros Htok. rewrite fetch_all_videos_eq, Htok.
  destruct (fetch_pages_only_lists (S (length (inbox w1))) token max_count
              PNone [] w1) as (cursors & Ht & Hc & Hr & Hk).
  destruct Hc as [more ->]; [done|].
  exists more. by rewrite Ht, Hr, Hk.
Qed.

(** X7. A page without content ends the listing: when the first answer's
    JSON body is empty or null, or is an object whose [data] is missing, null
    or empty, the listing stops after that one request and returns no
    video. *)
Theorem page_without_data_ends_listing (max_count : Z) (w w1 : world)
    (token : pyval) (resp : response) (rest : list reply) (body : pyval) :
  get_valid_access_token w = (inr token, w1) →
  inbox w1 = Reply resp :: rest →
  status_code resp < 400 →
  json resp = Some body →
  truthy body = false
  ∨ (∃ d, body = PDict d ∧ truthy (dict_get d "data" PNone) = false) →
  ∃ w',
    fetch_all_videos max_count w = (inr [], w')
    ∧ inbox w' = rest
    ∧ trace w' = (trace w1 ++ [list_request token max_count PNone])%list.
Proof.
  intros Htok Hin Hst Hjs Hbody.
  rewrite fetch_all_videos_eq, Htok, fetch_pages_eq, api_post_eq, Hin.
  cbv zeta.
  assert ((400 <=? status_code resp) && (status_code resp <? 600) = false)
    as -> by lia.
  rewrite Hjs.
  assert (read_page body = inr ([], PBool false, PNone)) as ->.
  { unfold read_page.
    assert (∃ d, py_or body (PDict ∅) = PDict d
                 ∧ truthy (dict_get d "data" PNone) = false) as (d & -> & Hd).
    { destruct Hbody as [Hf | (d & -> & Hd)].
      - exists ∅. by rewrite (py_or_falsy _ _ Hf).
      - destruct (truthy (PDict d)) eqn:Ht.
        + exists d. by rewrite (py_or_truthy _ _ Ht).
        + exists ∅. by rewrite (py_or_falsy _ _ Ht). }
    cbn [py_get]. cbv zeta. by rewrite (py_or_falsy _ _ Hd). }
  cbn [truthy negb orb app]. eexists. by repeat split.
Qed.

(** X8. Without a usable stored token the run endpoint asks nothing of the
    provider and posts nothing to the webhook: its only outbound call is the
    read of the table, and it answers [{ok: false, error}] with the
    configuration error's text. *)
Theorem run_without_token_calls_nobody (str_exn : exn → string) (w : world) :
  lacks_usable_token w →
  ∃ msg w',
    run_now str_exn w
    = (inr {[ "ok" := PBool false;
              "error" := PStr (str_exn (RuntimeError msg)) ]}, w')
    ∧ (msg = NO_TOKENS_MSG ∨ msg = NO_REFRESH_MSG)
    ∧ trace w' = (trace w ++ [DbSelect])%list
    ∧ inbox w' = inbox w.
Proof.
  intros Hlack.
  assert (∃ msg w',
    get_valid_access_token w = (inl (RuntimeError msg), w')
    ∧ (msg = NO_TOKENS_MSG ∨ msg = NO_REFRESH_MSG)
    ∧ trace w' = (trace w ++ [DbSelect])%list
    ∧ inbox w' = inbox w) as (msg & w' & Hrun & Hmsg & Ht & Hi).
  { rewrite get_valid_access_token_eq.
    destruct Hlack as [-> | (row & -> & Hrt & Hat)].
    - eexists _, _. split; [reflexivity|]. split; [by left|]. by split.
    - cbv zeta. unfold refresh_or_fail. rewrite Hrt.
      destruct Hat as [-> | (e & He & Hle)].
      + eexists _, _. split; [reflexivity|]. split; [by right|]. by split.
      + destruct (truthy (dict_get row "access_token" PNone)).
        * rewrite (dict_get_Some _ _ _ _ He), py_or_int_zero. cbn [py_int].
          assert ((epoch (clock w (reads w)) <? e) = false) as -> by lia.
          eexists _, _. split; [reflexivity|]. split; [by right|]. by split.
        * eexists _, _. split; [reflexivity|]. split; [by right|]. by split. }
  exists msg, w'.
  rewrite run_now_eq, call_n8n_eq, fetch_all_videos_eq, Hrun. by repeat split.
Qed.

(** X9. The relay does not look at the webhook's status: whatever status the
    webhook answers with, error statuses included, and however long its body,
    [call_n8n] makes its one request with all the items and returns the
    status as [n8n_status] and the number of items as [count], without
    raising; [n8n_text] is the beginning of the body, as long as the smaller
    of 500 and the body's length, so a body of at most 500 characters is
    returned whole. *)
Theorem relay_passes_webhook_answer_through (w w1 : world)
    (items : list pyval) (resp : response) (rest : list reply) :
  fetch_all_videos 20 w = (inr items, w1) →
  inbox w1 = Reply resp :: rest →
  ∃ w' shown,
    call_n8n w
    = (inr {[ "n8n_status" := PInt (status_code resp);
              "n8n_text" := PStr shown;
              "count" := PInt (Z.of_nat (length items)) ]}, w')
    ∧ trace w' = (trace w1 ++ [relay_request (env w1) items])%list
    ∧ inbox w' = rest
    ∧ (∃ tail, text resp = shown +:+ tail)
    ∧ String.length shown = Nat.min 500 (String.length (text resp))
    ∧ ((String.length (text resp) ≤ 500)%nat → shown = text resp).
Proof.
  intros Hf Hin.
  rewrite call_n8n_eq, Hf, http_eq, Hin.
  exists (set_inbox rest (log (relay_request (env w1) items) w1)),
    (str_prefix 500 (text resp)).
  split; [reflexivity|]. split; [reflexivity|]. split; [reflexivity|].
  split; [apply str_prefix_split|].
  split; [apply str_prefix_length_min | apply str_prefix_short].
Qed.

(** X10. The forced refresh without a stored refresh token (no row, or a row
    whose refresh token is missing or empty) raises [HTTPException] with
    status 400 after the read of the table alone: no request is made. *)
Theorem force_refresh_needs_refresh_token (w : world) :
  tokens_row w = None
  ∨ (∃ row, tokens_row w = Some row
            ∧ truthy (dict_get row "refresh_token" PNone) = false) →
  force_refresh w
  = (inl (HTTPException 400 (PStr "No hay refresh_token guardado.")),
     log DbSelect w).
Proof.
  intros Hcase. unfold force_refresh, bind at 1.
  rewrite get_tokens_row_eq.
  destruct Hcase as [-> | (row & -> & Hrt)]; [reflexivity|].
  cbn [fmap option_fmap option_map]. cbv zeta.
  rewrite select_columns_truthy, select_columns_get
    by (unfold TOKEN_COLUMNS; set_solver).
  by rewrite Hrt.
Qed.

(** X11. The forced refresh with a stored refresh token and a successful
    answer returns the first 12 characters of the new access token and the
    expiry it has just stored, read back from the table; its calls are the
    read, the one refresh request, the upsert and the read again. *)
Theorem force_refresh_reports_new_token (w : world) (row : gmap string pyval)
    (R B : string) (resp : response) (rest : list reply)
    (d : gmap string pyval) (n : Z) :
  tokens_row w = Some row →
  row !! "refresh_token" = Some (PStr R) → R ≠ "" →
  inbox w = Reply resp :: rest →
  status_code resp < 400 →
  json resp = Some (PDict d) →
  d !! "access_token" = Some (PStr B) →
  granted_lifetime (PDict d) = Some n →
  ∃ w' payload,
    force_refresh w
    = (inr {[ "ok" := PBool true;
              "access_token_prefix" := PStr (str_prefix 12 B);
              "expires_at" := PInt (epoch (clock w (reads w)) + n - 60) ]},
       w')
    ∧ trace w'
      = (trace w ++ [DbSelect; refresh_request (env w) (PStr R);
                     DbUpsert payload; DbSelect])%list
    ∧ column w' "access_token" = Some (PStr B)
    ∧ inbox w' = rest.
Proof.
  intros Hrow HR HRne Hin Hst Hjs HB Hn.
  unfold force_refresh, bind at 1. rewrite get_tokens_row_eq, Hrow.
  cbn [fmap option_fmap option_map]. cbv zeta.
  rewrite select_columns_truthy, select_columns_get
    by (unfold TOKEN_COLUMNS; set_solver).
  rewrite (dict_get_Some _ _ _ _ HR), (truthy_nonempty_str R HRne).
  cbn [negb orb default from_option id].
  unfold bind at 1, lift at 1, py_getitem.
  rewrite select_columns_lookup by (unfold TOKEN_COLUMNS; set_solver).
  rewrite (dict_get_Some _ _ _ _ HR).
  unfold bind at 1.
  rewrite (refresh_access_token_granted (PStr R) (log DbSelect w) resp rest d
             (PStr B) n) by done.
  unfold bind at 1, lift at 1. cbn [py_prefix].
  unfold bind at 1. rewrite get_tokens_row_eq, tokens_row_written.
  cbn [fmap option_fmap option_map].
  unfold bind at 1, lift at 1.
  rewrite select_columns_get by (unfold TOKEN_COLUMNS; set_solver).
  destruct (upsert_payload_value (PStr B) (dict_get d "refresh_token" (PStr R))
              (dict_get d "scope" PNone)
              (Some (epoch (clock w (reads w)) + n - 60)) PNone
              (isoformat (clock w (S (reads w)))))
    as (_ & Ha & _ & _ & Hx & _).
  cbn [clock reads log env] in *.
  rewrite (dict_get_union_l _ _ _ _ _ (Hx _ eq_refl)).
  eexists _, _. split; [reflexivity|].
  cbn [trace log written set_row tick set_inbox inbox].
  rewrite <- !app_assoc. split; [reflexivity|]. split; [|reflexivity].
  unfold column. cbn [tokens_row log set_row mbind option_bind].
  by apply lookup_union_Some_l, Ha.
Qed.

Lemma callback_tail_eq (a state : pyval) (w : world) :
  callback_tail a state w =
  let ev := HttpGet user_info_url a in
  match inbox w with
  | [] => (inl RequestException, log ev w)
  | NoReply :: rest => (inl RequestException, set_inbox rest (log ev w))
  | Reply info :: rest =>
      let w1 := set_inbox rest (log ev w) in
      if status_code info <? 400 then
        match json info with
        | None => (inl JSONDecodeError, w1)
        | Some j =>
            match read_open_id j with
            | inl x => (inl x, w1)
            | inr open_id =>
                if truthy open_id then
                  (inr (callback_answer state),
                   written (upsert_payload PNone PNone PNone None open_id
                              (isoformat (clock w (reads w))))
                     (tick w1))
                else (inr (callback_answer state), w1)
            end
        end
      else (inr (callback_answer state), w1)
  end.
Proof.
  unfold callback_tail. unfold bind at 1. rewrite http_eq. cbv zeta.
  destruct (inbox w) as [|[info|] rest]; [reflexivity| |reflexivity].
  unfold bind at 1.
  destruct (status_code info <? 400); [|reflexivity].
  unfold bind at 1, resp_json. destruct (json info) as [j|]; [|reflexivity].
  unfold ret at 1, read_open_id.
  unfold bind at 1, lift at 1.
  destruct (py_get j "data" PNone) as [x|d]; [reflexivity|].
  unfold bind at 1, lift at 1.
  destruct (py_get (py_or d (PDict ∅)) "user" PNone) as [x|u]; [reflexivity|].
  cbv zeta. unfold bind at 1, lift at 1.
  destruct (py_get (py_or u (PDict ∅)) "open_id" PNone) as [x|open_id];
    [reflexivity|].
  destruct (truthy open_id); [|reflexivity].
  by rewrite upsert_tokens_eq.
Qed.

Lemma oauth_callback_granted (code state : pyval) (w : world)
    (resp : response) (after : list reply) (d : gmap string pyval) (a : pyval)
    (n : Z) :
  inbox w = Reply resp :: after →
  status_code resp < 400 →
  json resp = Some (PDict d) →
  d !! "access_token" = Some a →
  granted_lifetime (PDict d) = Some n →
  oauth_callback code state w
  = callback_tail a state (tokens_saved code d a n after w).
Proof.
  intros Hin Hst Hjs Ha Hn.
  rewrite oauth_callback_eq, Hin. cbv zeta.
  assert ((400 <=? status_code resp) = false) as -> by lia.
  rewrite Hjs. unfold read_grant, py_getitem, py_get. rewrite Ha.
  unfold granted_lifetime in Hn.
  destruct (d !! "expires_in") as [x|] eqn:Hx.
  - rewrite (dict_get_Some _ _ _ _ Hx).
    destruct (py_int x) as [|n']; [discriminate|]. by injection Hn as ->.
  - rewrite (dict_get_None _ _ _ Hx). cbn [py_int]. by injection Hn as <-.
Qed.

Lemma tokens_saved_columns (code : pyval) (d : gmap string pyval) (A : string)
    (n : Z) (after : list reply) (w : world) :
  let w1 := tokens_saved code d (PStr A) n after w in
  column w1 "access_token" = Some (PStr A)
  ∧ column w1 "expires_at" = Some (PInt (epoch (clock w (reads w)) + n - 60))
  ∧ column w1 "account_open_id" = column w "account_open_id"
  ∧ inbox w1 = after
  ∧ trace w1
    = (trace w ++ [code_request (env w) code;
                   DbUpsert (upsert_payload (PStr A)
                     (dict_get d "refresh_token" PNone)
                     (dict_get d "scope" PNone)
                     (Some (epoch (clock w (reads w)) + n - 60)) PNone
                     (isoformat (clock w (S (reads w)))))])%list.
Proof.
  cbv zeta. unfold tokens_saved. rewrite !column_written.
  set (p := upsert_payload _ _ _ _ _ _).
  destruct (upsert_payload_value (PStr A) (dict_get d "refresh_token" PNone)
              (dict_get d "scope" PNone)
              (Some (epoch (clock w (reads w)) + n - 60)) PNone
              (isoformat (clock w (S (reads w)))))
    as (_ & Ha & _ & _ & Hx & _). fold p in Ha, Hx.
  rewrite Ha, (Hx _ eq_refl) by done.
  split; [done|]. split; [done|]. split; [|split; [done|]].
  - destruct (p !! "account_open_id") as [v|] eqn:Hp; [|done].
    apply upsert_payload_lookup in Hp as [_ Hp]. naive_solver.
  - rewrite trace_written. cbn [trace tick set_inbox log].
    by rewrite <- app_assoc.
Qed.

(** X12. A successful callback stores both answers: with a token response
    carrying access token [A] and a user-info response carrying a non-empty
    [open_id], the row ends up with the access token, the expiry computed
    from the lifetime and the account's [open_id] (the second upsert leaves
    what the first one stored), and the callback answers
    [{ok, saved, state}] after exactly the four calls: code exchange, upsert,
    user info, upsert. *)
Theorem callback_stores_tokens_and_open_id (code state : pyval) (w : world)
    (resp info : response) (rest : list reply) (d j dd u : gmap string pyval)
    (A O : string) (n : Z) :
  inbox w = Reply resp :: Reply info :: rest →
  status_code resp < 400 →
  json resp = Some (PDict d) →
  d !! "access_token" = Some (PStr A) →
  granted_lifetime (PDict d) = Some n →
  status_code info < 400 →
  json info = Some (PDict j) →
  j !! "data" = Some (PDict dd) →
  dd !! "user" = Some (PDict u) →
  u !! "open_id" = Some (PStr O) → O ≠ "" →
  ∃ w' p1 p2,
    oauth_callback code state w = (inr (callback_answer state), w')
    ∧ trace w'
      = (trace w ++ [code_request (env w) code; DbUpsert p1;
                     HttpGet user_info_url (PStr A); DbUpsert p2])%list
    ∧ inbox w' = rest
    ∧ column w' "access_token" = Some (PStr A)
    ∧ column w' "expires_at"
      = Some (PInt (epoch (clock w (reads w)) + n - 60))
    ∧ column w' "account_open_id" = Some (PStr O).
Proof.
  intros Hin Hst Hjs HA Hn Hist Hij Hdata Huser Hoid HOne.
  rewrite (oauth_callback_granted code state w resp (Reply info :: rest) d
             (PStr A) n) by done.
  destruct (tokens_saved_columns code d A n (Reply info :: rest) w)
    as (Hca & Hce & _ & Hi & Ht).
  rewrite callback_tail_eq, Hi. cbv zeta.
  assert ((status_code info <? 400) = true) as -> by lia.
  rewrite Hij.
  assert (read_open_id (PDict j) = inr (PStr O)) as ->.
  { unfold read_open_id. cbn [py_get].
    rewrite (dict_get_Some _ _ _ _ Hdata).
    rewrite (py_or_truthy (PDict dd)) by (by eapply truthy_dict_lookup).
    cbn [py_get]. rewrite (dict_get_Some _ _ _ _ Huser).
    rewrite (py_or_truthy (PDict u)) by (by eapply truthy_dict_lookup).
    cbn [py_get]. by rewrite (dict_get_Some _ _ _ _ Hoid). }
  rewrite (truthy_nonempty_str O HOne).
  eexists _, _, _. split; [reflexivity|].
  rewrite trace_written, !column_written.
  set (p2 := upsert_payload PNone PNone PNone None (PStr O) _).
  destruct (upsert_payload_value PNone PNone PNone None (PStr O)
              (isoformat (clock (tokens_saved code d (PStr A) n
                                   (Reply info :: rest) w)
                            (reads (tokens_saved code d (PStr A) n
                                      (Reply info :: rest) w)))))
    as (_ & _ & _ & _ & _ & Ho). fold p2 in Ho.
  assert (∀ k, k = "access_token" ∨ k = "expires_at" → p2 !! k = None) as Hno.
  { intros k Hk. destruct (p2 !! k) as [v|] eqn:Hp; [|done].
    apply upsert_payload_lookup in Hp as [_ Hp].
    destruct Hk as [-> | ->]; naive_solver. }
  rewrite (Hno "access_token") by (by left).
  rewrite (Hno "expires_at") by (by right).
  rewrite Ho by done.
  cbn [trace tick set_inbox log inbox]. rewrite Ht, <- !app_assoc.
  split; [reflexivity|]. split; [reflexivity|].
  split; [exact Hca|]. split; [exact Hce|]. reflexivity.
Qed.

(** X13. An error status from the user-info endpoint is swallowed: the
    callback still answers [{ok, saved, state}], the tokens stay stored and
    the account's [open_id] stays what it was. *)
Theorem callback_ignores_user_info_error (code state : pyval) (w : world)
    (resp info : response) (rest : list reply) (d : gmap string pyval)
    (A : string) (n : Z) :
  inbox w = Reply resp :: Reply info :: rest →
  status_code resp < 400 →
  json resp = Some (PDict d) →
  d !! "access_token" = Some (PStr A) →
  granted_lifetime (PDict d) = Some n →
  400 ≤ status_code info →
  ∃ w' p1,
    oauth_callback code state w = (inr (callback_answer state), w')
    ∧ trace w'
      = (trace w ++ [code_request (env w) code; DbUpsert p1;
                     HttpGet user_info_url (PStr A)])%list
    ∧ inbox w' = rest
    ∧ column w' "access_token" = Some (PStr A)
    ∧ column w' "account_open_id" = column w "account_open_id".
Proof.
  intros Hin Hst Hjs HA Hn Hist.
  rewrite (oauth_callback_granted code state w resp (Reply info :: rest) d
             (PStr A) n) by done.
  destruct (tokens_saved_columns code d A n (Reply info :: rest) w)
    as (Hca & _ & Hco & Hi & Ht).
  rewrite callback_tail_eq, Hi. cbv zeta.
  assert ((status_code info <? 400) = false) as -> by lia.
  eexists _, _. split; [reflexivity|].
  cbn [trace set_inbox log inbox]. rewrite Ht, <- !app_assoc.
  split; [reflexivity|]. split; [reflexivity|]. by split.
Qed.

(** X14. Only an error status is swallowed.  When the user-info request gets
    no reply, or a reply below 400 whose body is not JSON, the callback
    raises ([RequestException], [JSONDecodeError]); the tokens were stored
    before the request and stay stored. *)
Theorem callback_raises_after_saving (code state : pyval) (w : world)
    (resp : response) (after : list reply) (d : gmap string pyval)
    (A : string) (n : Z) :
  inbox w = Reply resp :: after →
  status_code resp < 400 →
  json resp = Some (PDict d) →
  d !! "access_token" = Some (PStr A) →
  granted_lifetime (PDict d) = Some n →
  let out := oauth_callback code state w in
  (after = [] ∨ (∃ rest, after = NoReply :: rest) →
     out.1 = inl RequestException)
  ∧ (∀ info rest, after = Reply info :: rest → status_code info < 400 →
       json info = None → out.1 = inl JSONDecodeError)
  ∧ (∀ e, out.1 = inl e → column out.2 "access_token" = Some (PStr A)).
Proof.
  intros Hin Hst Hjs HA Hn. cbv zeta.
  rewrite (oauth_callback_granted code state w resp after d (PStr A) n)
    by done.
  destruct (tokens_saved_columns code d A n after w)
    as (Hca & _ & _ & Hi & _).
  rewrite callback_tail_eq, Hi. cbv zeta.
  split; [|split].
  - by intros [-> | [rest ->]].
  - intros info rest -> Hist Hij.
    assert ((status_code info <? 400) = true) as -> by lia. by rewrite Hij.
  - intros e.
    destruct after as [|[info|] rest]; [done| |done].
    destruct (status_code info <? 400); [|discriminate].
    destruct (json info) as [j|]; [|done].
    destruct (read_open_id j) as [x|open_id]; [done|].
    destruct (truthy open_id); discriminate.
Qed.

(** X15. When the code exchange is answered with a status of 400 or more the
    callback raises [HTTPException] with that status and the answer's body;
    nothing is stored and the user-info request is not made. *)
Theorem callback_code_error_is_raised (code state : pyval) (w : world)
    (resp : response) (rest : list reply) :
  inbox w = Reply resp :: rest →
  400 ≤ status_code resp →
  oauth_callback code state w
  = (inl (HTTPException (status_code resp)
            (PDict {[ "oauth_code_error" := error_body resp ]})),
     set_inbox rest (log (code_request (env w) code) w)).
Proof.
  intros Hin Hst. rewrite oauth_callback_eq, Hin. cbv zeta.
  by assert ((400 <=? status_code resp) = true) as -> by lia.
Qed.

Lemma read_page_dict (b m : gmap string pyval) (vs : list pyval) :
  b !! "data" = Some (PDict m) →
  m !! "videos" = Some (PList vs) →
  read_page (PDict b)
  = inr (vs, dict_get m "has_more" (PBool false), dict_get m "cursor" PNone).
Proof.
  intros Hb Hm. unfold read_page.
  rewrite (py_or_truthy (PDict b)) by (by eapply truthy_dict_lookup).
  cbn [py_get]. rewrite (dict_get_Some _ _ _ _ Hb). cbv zeta.
  rewrite (py_or_truthy (PDict m)) by (by eapply truthy_dict_lookup).
  cbn [py_get]. by rewrite (dict_get_Some _ _ _ _ Hm), py_iter_or_list.
Qed.

(** X16. The cursor is passed on as the provider gave it, whatever its type
    (the provider's cursors are integers): when a page declares more results
    and supplies a cursor that counts as true, the next request carries that
    very value under [cursor], and the videos of the two pages are returned
    in order when the second page ends the listing. *)
Theorem cursor_is_passed_on (max_count : Z) (w w1 : world) (token : pyval)
    (r1 r2 : response) (rest : list reply) (b1 m1 b2 m2 : gmap string pyval)
    (vs1 vs2 : list pyval) (more c : pyval) :
  get_valid_access_token w = (inr token, w1) →
  inbox w1 = Reply r1 :: Reply r2 :: rest →
  status_code r1 < 400 → json r1 = Some (PDict b1) →
  b1 !! "data" = Some (PDict m1) →
  m1 !! "videos" = Some (PList vs1) →
  m1 !! "has_more" = Some more → truthy more = true →
  m1 !! "cursor" = Some c → truthy c = true →
  status_code r2 < 400 → json r2 = Some (PDict b2) →
  b2 !! "data" = Some (PDict m2) →
  m2 !! "videos" = Some (PList vs2) →
  m2 !! "has_more" = None →
  ∃ w',
    fetch_all_videos max_count w = (inr (vs1 ++ vs2)%list, w')
    ∧ inbox w' = rest
    ∧ trace w'
      = (trace w1 ++ [list_request token max_count PNone;
                      list_request token max_count c])%list
    ∧ list_body max_count c !! "cursor" = Some c
    ∧ list_body max_count PNone !! "cursor" = None.
Proof.
  intros Htok Hin Hs1 Hj1 Hb1 Hv1 Hm1 Hmore Hc1 Hc Hs2 Hj2 Hb2 Hv2 Hm2.
  rewrite fetch_all_videos_eq, Htok, Hin. cbn [length].
  rewrite fetch_pages_eq, api_post_eq, Hin. cbv zeta.
  assert ((400 <=? status_code r1) && (status_code r1 <? 600) = false)
    as -> by lia.
  rewrite Hj1, (read_page_dict _ _ _ Hb1 Hv1).
  rewrite (dict_get_Some _ _ _ _ Hm1), (dict_get_Some _ _ _ _ Hc1), Hmore, Hc.
  cbn [negb orb app].
  rewrite fetch_pages_eq, api_post_eq. cbv zeta. cbn [inbox set_inbox log].
  assert ((400 <=? status_code r2) && (status_code r2 <? 600) = false)
    as -> by lia.
  rewrite Hj2, (read_page_dict _ _ _ Hb2 Hv2), (dict_get_None _ _ _ Hm2).
  cbn [truthy negb orb].
  eexists. split; [reflexivity|]. split; [reflexivity|].
  split; [cbn [trace set_inbox log]; by rewrite <- app_assoc|].
  unfold list_body. cbv zeta. rewrite Hc. cbn [truthy].
  split; [apply lookup_insert_eq|].
  by rewrite lookup_insert_ne, lookup_singleton_ne.
Qed.

(** X17. After a refresh the listing goes on with the new token: when the
    stored access token is unusable (missing or empty, or expired, or
    without an expiry), the refresh is answered with access token [B] and the
    provider then serves the pages, every listing request carries [B], and
    the run's calls are the read, the one refresh request, the upsert and the
    page requests, in that order. *)
Theorem listing_uses_refreshed_token (max_count : Z) (w : world)
    (row : gmap string pyval) (R : string) (resp : response)
    (d : gmap string pyval) (B : pyval) (n : Z) (pre : list page)
    (last : page) (rs : list response) (rest : list reply) :
  tokens_row w = Some row →
  row !! "refresh_token" = Some (PStr R) → R ≠ "" →
  truthy (dict_get row "access_token" PNone) = false
  ∨ (∃ e, row !! "expires_at" = Some (PInt e)
          ∧ e ≤ epoch (clock w (reads w)))
  ∨ (truthy (dict_get row "expires_at" PNone) = false
     ∧ 0 ≤ epoch (clock w (reads w))) →
  inbox w = (Reply resp :: (Reply <$> rs) ++ rest)%list →
  status_code resp < 400 →
  json resp = Some (PDict d) →
  d !! "access_token" = Some B →
  granted_lifetime (PDict d) = Some n →
  Forall2 serves rs (pre ++ [last])%list →
  Forall declares_more pre →
  ¬ declares_more last →
  ∃ w' payload,
    fetch_all_videos max_count w
    = (inr (concat (videos <$> (pre ++ [last])%list)), w')
    ∧ inbox w' = rest
    ∧ trace w'
      = (trace w
         ++ [DbSelect; refresh_request (env w) (PStr R); DbUpsert payload]
         ++ (list_request B max_count <$> (PNone :: (cursor_value <$> pre))))%list.
Proof.
  intros Hrow HR HRne Hcase Hin Hst Hjs HB Hn Hrs Hpre Hlast.
  assert (get_valid_access_token w
          = refresh_access_token (PStr R) (tick (log DbSelect w))) as Hgv.
  { rewrite get_valid_access_token_eq, Hrow. cbv zeta.
    assert (refresh_or_fail row (tick (log DbSelect w))
            = refresh_access_token (PStr R) (tick (log DbSelect w))) as ->.
    { unfold refresh_or_fail. rewrite (dict_get_Some _ _ _ _ HR).
      by rewrite (truthy_nonempty_str R HRne). }
    destruct Hcase as [-> | [(e & He & Hle) | (Hf & Hnow)]]; [reflexivity| |];
      (destruct (truthy (dict_get row "access_token" PNone)); [|reflexivity]).
    - rewrite (dict_get_Some _ _ _ _ He), py_or_int_zero. cbn [py_int].
      by assert ((epoch (clock w (reads w)) <? e) = false) as -> by lia.
    - rewrite (py_or_falsy _ _ Hf). cbn [py_int].
      by assert ((epoch (clock w (reads w)) <? 0) = false) as -> by lia. }
  rewrite fetch_all_videos_eq, Hgv.
  rewrite (refresh_access_token_granted (PStr R) (tick (log DbSelect w)) resp
             ((Reply <$> rs) ++ rest)%list d B n) by done.
  match goal with |- context [fetch_pages ?f B max_count PNone [] ?w1] =>
    destruct (fetch_pages_run pre f B max_count PNone [] w1 last rs rest)
      as (w' & Hrun & Hi & Ht & _) end; [|reflexivity|done..|].
  { cbn [inbox written set_row log tick set_inbox].
    rewrite length_app, length_fmap.
    apply Forall2_length in Hrs. rewrite Hrs, length_app. lia. }
  eexists w', _. rewrite Hrun. split; [reflexivity|]. split; [done|].
  rewrite Ht, trace_written. cbn [trace tick set_inbox log env].
  by rewrite <- !app_assoc.
Qed.

(** ** The further properties on the sample worlds *)

Lemma upsert_then_read_witness :
  ∃ row,
    get_tokens_row
      (upsert_tokens (PStr "A") PNone PNone (PInt 3600) PNone
         (world_of None [])).2
    = (inr (Some row),
       log DbSelect
         (upsert_tokens (PStr "A") PNone PNone (PInt 3600) PNone
            (world_of None [])).2)
    ∧ row !! "provider" = Some (PStr "tiktok")
    ∧ row !! "access_token" = Some (PStr "A")
    ∧ row !! "expires_at" = Some (PInt 4540).
Proof.
  destruct (upsert_then_read (PStr "A") PNone PNone (PInt 3600) PNone
              (world_of None []) (or_intror (ex_intro _ 3600 eq_refl)))
    as (row & Hget & Hp & Ha & _ & _ & He & _).
  exists row. split; [exact Hget|]. split; [exact Hp|].
  split; [apply Ha; discriminate | exact (He 3600 eq_refl)].
Defined.

Lemma refreshed_token_is_then_valid_witness :
  ∃ w2,
    get_valid_access_token (refresh_access_token (PStr "R") refresh_world).2
    = (inr (PStr "B"), w2)
    ∧ trace w2
      = (trace (refresh_access_token (PStr "R") refresh_world).2
         ++ [DbSelect])%list
    ∧ inbox w2 = []
    ∧ tokens_row w2
      = tokens_row (refresh_access_token (PStr "R") refresh_world).2.
Proof.
  apply (refreshed_token_is_then_valid (PStr "R") refresh_world
           (answer 200 (PDict grant_B)) [] grant_B "B" 3600);
    try reflexivity; try discriminate; simpl; lia.
Defined.

Lemma refresh_stores_rotated_token_witness :
  column
    (refresh_access_token (PStr "R")
       (world_of (Some stale_row) [Reply (answer 200 (PDict grant_rotated))])).2
    "refresh_token"
  = Some (PStr "R2").
Proof.
  refine (proj1 (refresh_stores_rotated_token (PStr "R")
            (world_of (Some stale_row)
               [Reply (answer 200 (PDict grant_rotated))])
            (answer 200 (PDict grant_rotated)) [] grant_rotated (PStr "B") 3600
            eq_refl _ eq_refl eq_refl eq_refl) (PStr "R2") eq_refl _);
    [simpl; lia | discriminate].
Defined.

Lemma refresh_fails_before_storing_witness :
  (refresh_access_token (PStr "R")
     (world_of (Some stale_row) [Reply (answer 200 (PDict ∅))])).1
  = inl (KeyError "access_token").
Proof.
  refine (proj1 (proj2 (proj1 (proj2 (refresh_fails_before_storing (PStr "R")
            (world_of (Some stale_row) [Reply (answer 200 (PDict ∅))])))
            (answer 200 (PDict ∅)) [] eq_refl _)) ∅ eq_refl eq_refl).
  simpl; lia.
Defined.

Lemma token_without_expiry_is_refreshed_witness :
  get_valid_access_token (world_of (Some undated_row) [])
  = refresh_access_token (PStr "R")
      (tick (log DbSelect (world_of (Some undated_row) []))).
Proof.
  apply (token_without_expiry_is_refreshed (world_of (Some undated_row) [])
           undated_row);
    [reflexivity | reflexivity | right; split; [reflexivity | simpl; lia]].
Defined.

Lemma run_without_token_calls_nobody_witness :
  ∃ msg w',
    run_now (λ _, "error") (world_of None [])
    = (inr {[ "ok" := PBool false; "error" := PStr "error" ]}, w')
    ∧ (msg = NO_TOKENS_MSG ∨ msg = NO_REFRESH_MSG)
    ∧ trace w' = [DbSelect]
    ∧ inbox w' = [].
Proof.
  apply (run_without_token_calls_nobody (λ _, "error") (world_of None [])).
  left. reflexivity.
Defined.

Lemma listing_only_requests_pages_witness :
  ∃ more,
    trace (fetch_all_videos 20 two_page_world).2
    = (DbSelect :: (list_request (PStr "A") 20 <$> (PNone :: more)))%list
    ∧ tokens_row (fetch_all_videos 20 two_page_world).2 = Some fresh_row
    ∧ reads (fetch_all_videos 20 two_page_world).2 = 1%nat.
Proof.
  apply (listing_only_requests_pages 20 two_page_world
           (tick (log DbSelect two_page_world)) (PStr "A")).
  vm_compute; reflexivity.
Defined.

Lemma page_without_data_ends_listing_witness :
  ∃ w',
    fetch_all_videos 20
      (world_of (Some fresh_row) [Reply (answer 200 (PDict ∅))])
    = (inr [], w')
    ∧ inbox w' = []
    ∧ trace w' = [DbSelect; list_request (PStr "A") 20 PNone].
Proof.
  apply (page_without_data_ends_listing 20
           (world_of (Some fresh_row) [Reply (answer 200 (PDict ∅))])
           (tick (log DbSelect
              (world_of (Some fresh_row) [Reply (answer 200 (PDict ∅))])))
           (PStr "A") (answer 200 (PDict ∅)) [] (PDict ∅)).
  - vm_compute; reflexivity.
  - reflexivity.
  - simpl; lia.
  - reflexivity.
  - left. reflexivity.
Defined.

Lemma callback_stores_tokens_and_open_id_witness :
  ∃ w' p1 p2,
    oauth_callback (PStr "code-1") PNone callback_world
    = (inr (callback_answer PNone), w')
    ∧ trace w'
      = [code_request sample_env (PStr "code-1"); DbUpsert p1;
         HttpGet user_info_url (PStr "B"); DbUpsert p2]
    ∧ inbox w' = []
    ∧ column w' "access_token" = Some (PStr "B")
    ∧ column w' "expires_at" = Some (PInt (1000 + 3600 - 60))
    ∧ column w' "account_open_id" = Some (PStr "open-1").
Proof.
  apply (callback_stores_tokens_and_open_id (PStr "code-1") PNone
           callback_world (answer 200 (PDict grant_B))
           (answer 200 (PDict user_info_body)) [] grant_B user_info_body
           {[ "user" := PDict {[ "open_id" := PStr "open-1" ]} ]}
           {[ "open_id" := PStr "open-1" ]} "B" "open-1" 3600);
    try reflexivity; try discriminate; simpl; lia.
Defined.

Lemma callback_ignores_user_info_error_witness :
  ∃ w' p1,
    oauth_callback (PStr "code-1") PNone
      (world_of None [Reply (answer 200 (PDict grant_B));
                      Reply (Response 403 "forbidden" None)])
    = (inr (callback_answer PNone), w')
    ∧ trace w'
      = [code_request sample_env (PStr "code-1"); DbUpsert p1;
         HttpGet user_info_url (PStr "B")]
    ∧ inbox w' = []
    ∧ column w' "access_token" = Some (PStr "B")
    ∧ column w' "account_open_id" = None.
Proof.
  apply (callback_ignores_user_info_error (PStr "code-1") PNone
           (world_of None [Reply (answer 200 (PDict grant_B));
                           Reply (Response 403 "forbidden" None)])
           (answer 200 (PDict grant_B)) (Response 403 "forbidden" None) []
           grant_B "B" 3600);
    try reflexivity; simpl; lia.
Defined.

Lemma callback_raises_after_saving_witness :
  (oauth_callback (PStr "code-1") PNone
     (world_of None [Reply (answer 200 (PDict grant_B))])).1
  = inl RequestException
  ∧ column
      (oauth_callback (PStr "code-1") PNone
         (world_of None [Reply (answer 200 (PDict grant_B))])).2
      "access_token"
    = Some (PStr "B").
Proof.
  assert (status_code (answer 200 (PDict grant_B)) < 400) as Hst
    by (simpl; lia).
  pose proof (callback_raises_after_saving (PStr "code-1") PNone
                (world_of None [Reply (answer 200 (PDict grant_B))])
                (answer 200 (PDict grant_B)) [] grant_B "B" 3600
                eq_refl Hst eq_refl eq_refl eq_refl) as (H1 & _ & H3).
  split; [exact (H1 (or_introl eq_refl))|].
  exact (H3 _ (H1 (or_introl eq_refl))).
Defined.

Lemma callback_code_error_is_raised_witness :
  oauth_callback (PStr "code-1") PNone
    (world_of None [Reply (Response 400 "bad code" None)])
  = (inl (HTTPException 400
            (PDict {[ "oauth_code_error"
                      := PDict {[ "text" := PStr "bad code" ]} ]})),
     set_inbox []
       (log (code_request sample_env (PStr "code-1"))
          (world_of None [Reply (Response 400 "bad code" None)]))).
Proof.
  apply (callback_code_error_is_raised (PStr "code-1") PNone
           (world_of None [Reply (Response 400 "bad code" None)])
           (Response 400 "bad code" None) []);
    [reflexivity | simpl; lia].
Defined.

Lemma force_refresh_needs_refresh_token_witness :
  force_refresh (world_of (Some fresh_row) [])
  = (inl (HTTPException 400 (PStr "No hay refresh_token guardado.")),
     log DbSelect (world_of (Some fresh_row) [])).
Proof.
  apply (force_refresh_needs_refresh_token (world_of (Some fresh_row) [])).
  right. exists fresh_row. split; reflexivity.
Defined.

Lemma force_refresh_reports_new_token_witness :
  ∃ w' payload,
    force_refresh refresh_world
    = (inr {[ "ok" := PBool true;
              "access_token_prefix" := PStr "B";
              "expires_at" := PInt (1000 + 3600 - 60) ]}, w')
    ∧ trace w'
      = [DbSelect; refresh_request sample_env (PStr "R"); DbUpsert payload;
         DbSelect]
    ∧ column w' "access_token" = Some (PStr "B")
    ∧ inbox w' = [].
Proof.
  apply (force_refresh_reports_new_token refresh_world stale_row "R" "B"
           (answer 200 (PDict grant_B)) [] grant_B 3600);
    try reflexivity; try discriminate; simpl; lia.
Defined.

Lemma relay_passes_webhook_answer_through_witness :
  ∃ w',
    call_n8n
      (world_of (Some fresh_row)
         [Reply (answer 200 (page_json page_two));
          Reply (Response 500 "oops" None)])
    = (inr {[ "n8n_status" := PInt 500; "n8n_text" := PStr "oops";
              "count" := PInt 1 ]}, w')
    ∧ trace w'
      = [DbSelect; list_request (PStr "A") 20 PNone;
         relay_request sample_env [PStr "v3"]]
    ∧ inbox w' = [].
Proof.
  assert (fetch_all_videos 20
            (world_of (Some fresh_row)
               [Reply (answer 200 (page_json page_two));
                Reply (Response 500 "oops" None)])
          = (inr [PStr "v3"],
             (fetch_all_videos 20
                (world_of (Some fresh_row)
                   [Reply (answer 200 (page_json page_two));
                    Reply (Response 500 "oops" None)])).2)) as Hf
    by (vm_compute; reflexivity).
  assert (inbox
            (fetch_all_videos 20
               (world_of (Some fresh_row)
                  [Reply (answer 200 (page_json page_two));
                   Reply (Response 500 "oops" None)])).2
          = [Reply (Response 500 "oops" None)]) as Hin
    by (vm_compute; reflexivity).
  assert (String.length "oops" ≤ 500)%nat as Hlen by (simpl; lia).
  destruct (relay_passes_webhook_answer_through _ _ _ _ _ Hf Hin)
    as (w' & shown & Hrun & Ht & Hi & _ & _ & Hshort).
  exists w'. rewrite (Hshort Hlen) in Hrun.
  split; [exact Hrun|]. split; [exact Ht | exact Hi].
Defined.

Lemma cursor_is_passed_on_witness :
  ∃ w',
    fetch_all_videos 20
      (world_of (Some fresh_row)
         [Reply (answer 200 (PDict numbered_page));
          Reply (answer 200 (PDict closing_page))])
    = (inr [PStr "v1"; PStr "v2"], w')
    ∧ inbox w' = []
    ∧ trace w'
      = [DbSelect; list_request (PStr "A") 20 PNone;
         list_request (PStr "A") 20 (PInt 1700000000000)]
    ∧ list_body 20 (PInt 1700000000000) !! "cursor"
      = Some (PInt 1700000000000)
    ∧ list_body 20 PNone !! "cursor" = None.
Proof.
  apply (cursor_is_passed_on 20
           (world_of (Some fresh_row)
              [Reply (answer 200 (PDict numbered_page));
               Reply (answer 200 (PDict closing_page))])
           (tick (log DbSelect
              (world_of (Some fresh_row)
                 [Reply (answer 200 (PDict numbered_page));
                  Reply (answer 200 (PDict closing_page))])))
           (PStr "A") (answer 200 (PDict numbered_page))
           (answer 200 (PDict closing_page)) [] numbered_page
           {[ "videos" := PList [PStr "v1"]; "has_more" := PBool true;
              "cursor" := PInt 1700000000000 ]}
           closing_page {[ "videos" := PList [PStr "v2"] ]}
           [PStr "v1"] [PStr "v2"] (PBool true) (PInt 1700000000000));
    try reflexivity; try (simpl; lia); vm_compute; reflexivity.
Defined.

Lemma listing_uses_refreshed_token_witness :
  ∃ w' payload,
    fetch_all_videos 20
      (world_of (Some expired_row)
         [Reply (answer 200 (PDict grant_B));
          Reply (answer 200 (page_json page_one));
          Reply (answer 200 (page_json page_two))])
    = (inr [PStr "v1"; PStr "v2"; PStr "v3"], w')
    ∧ inbox w' = []
    ∧ trace w'
      = [DbSelect; refresh_request sample_env (PStr "R"); DbUpsert payload;
         list_request (PStr "B") 20 PNone;
         list_request (PStr "B") 20 (PStr "c1")].
Proof.
  apply (listing_uses_refreshed_token 20
           (world_of (Some expired_row)
              [Reply (answer 200 (PDict grant_B));
               Reply (answer 200 (page_json page_one));
               Reply (answer 200 (page_json page_two))])
           expired_row "R" (answer 200 (PDict grant_B)) grant_B (PStr "B") 3600
           [page_one] page_two
           [answer 200 (page_json page_one); answer 200 (page_json page_two)]
           []).
  - reflexivity.
  - reflexivity.
  - discriminate.
  - right. left. exists 990. split; [reflexivity | simpl; lia].
  - reflexivity.
  - simpl; lia.
  - reflexivity.
  - reflexivity.
  - reflexivity.
  - repeat constructor; discriminate.
  - repeat constructor. by exists "c1".
  - intros [H _]. discriminate H.
Defined.
